(** * Changpei metadata source: a shallow embedding of [src/__init__.py]

    The plugin talks to three JSON endpoints of gongzicp.com and maps the
    answers into the host's metadata records.  The embedding keeps the
    dynamic typing of the Python code: every value read from a response is a
    [json] value, every operation on it may raise, and the three entry points
    thread a log, a result queue and the list of issued requests through a
    small state-and-exception monad. *)

From Stdlib Require Import String Ascii List ZArith Bool Arith Lia.
From Stdlib Require Import DecimalString.
Import ListNotations.
Open Scope string_scope.
Set Warnings "-register-all".

(** ** Values decoded from a response body *)

(** What [json.loads] produces.  A Python [dict] is an association list read
    by first match; numbers are the integers of the envelope contract. *)
Inductive json : Type :=
| JNull
| JBool (b : bool)
| JNum (n : Z)
| JStr (s : string)
| JArr (l : list json)
| JObj (kv : list (string * json)).

(** Exceptions the code can meet; all of them derive from [Exception]. *)
Inductive exn : Type :=
| KeyError (k : string)
| TypeError
| AttributeError
| ValueError
| JSONDecodeError
| URLError.

(** [JSONDecodeError] is a subclass of [ValueError]. *)
Definition is_ValueError (e : exn) : bool :=
  match e with
  | ValueError | JSONDecodeError => true
  | _ => false
  end.

Inductive result (A : Type) : Type :=
| Ok (a : A)
| Raise (e : exn).
Arguments Ok {A} a.
Arguments Raise {A} e.

Definition rbind {A B} (r : result A) (f : A -> result B) : result B :=
  match r with
  | Ok a => f a
  | Raise e => Raise e
  end.

(** Python's short-circuit [and] on conditions that may raise. *)
Definition and_then (a b : result bool) : result bool :=
  match a with
  | Ok true => b
  | Ok false => Ok false
  | Raise e => Raise e
  end.

(** ** String helpers *)

Fixpoint lookup {A} (k : string) (kv : list (string * A)) : option A :=
  match kv with
  | [] => None
  | (k', v) :: rest => if String.eqb k k' then Some v else lookup k rest
  end.

Fixpoint starts_with (pat s : string) : bool :=
  match pat, s with
  | EmptyString, _ => true
  | String _ _, EmptyString => false
  | String a pat', String b s' => Ascii.eqb a b && starts_with pat' s'
  end.

(** [pat in s] on two strings. *)
Fixpoint str_contains (pat s : string) : bool :=
  starts_with pat s ||
  match s with
  | EmptyString => false
  | String _ s' => str_contains pat s'
  end.

(** [s.split(pat)[0]] for a non-empty separator: the text before the first
    occurrence of [pat], the whole of [s] when there is none. *)
Fixpoint split_head (pat s : string) : string :=
  if starts_with pat s then EmptyString
  else match s with
       | EmptyString => EmptyString
       | String c s' => String c (split_head pat s')
       end.

Definition is_space (c : ascii) : bool :=
  match nat_of_ascii c with
  | 9 | 10 | 11 | 12 | 13 | 32 => true
  | _ => false
  end.

Fixpoint lstrip (s : string) : string :=
  match s with
  | EmptyString => EmptyString
  | String c s' => if is_space c then lstrip s' else s
  end.

Definition rev_string (s : string) : string :=
  string_of_list_ascii (rev (list_ascii_of_string s)).

(** [bytes.strip()] *)
Definition strip (s : string) : string :=
  rev_string (lstrip (rev_string (lstrip s))).

(** Continuation bytes of UTF-8 have the two top bits [10]. *)
Definition is_continuation (c : ascii) : bool :=
  match c with
  | Ascii _ _ _ _ _ _ b6 b7 => b7 && negb b6
  end.

Fixpoint utf8_chars_from (cur : string) (s : string) : list string :=
  match s with
  | EmptyString => match cur with EmptyString => [] | _ => [cur] end
  | String c s' =>
      if is_continuation c then utf8_chars_from (cur ++ String c EmptyString) s'
      else match cur with
           | EmptyString => utf8_chars_from (String c EmptyString) s'
           | _ => cur :: utf8_chars_from (String c EmptyString) s'
           end
  end.

(** The characters of a decoded string, as iteration over a [str] yields them. *)
Definition utf8_chars (s : string) : list string := utf8_chars_from EmptyString s.

Fixpoint join (sep : string) (l : list string) : string :=
  match l with
  | [] => EmptyString
  | [x] => x
  | x :: rest => x ++ sep ++ join sep rest
  end.

(** *** [urllib.parse.quote] with its default [safe='/']

    The argument is the UTF-8 text of the [str] that is quoted: the bytes
    [quote] works on once it has encoded its argument.  A [str] with a lone
    surrogate has no such text and makes the library raise instead; the
    properties of calls that quote a title assume the title encodable. *)

Definition always_safe (c : ascii) : bool :=
  let n := nat_of_ascii c in
  (((65 <=? n) && (n <=? 90)) || ((97 <=? n) && (n <=? 122)) ||
   ((48 <=? n) && (n <=? 57)) ||
   (n =? 95) || (n =? 46) || (n =? 45) || (n =? 126))%nat.

Definition hex_digit (n : nat) : ascii :=
  if (n <? 10)%nat then ascii_of_nat (48 + n) else ascii_of_nat (55 + n).

Definition percent_encode (c : ascii) : string :=
  let n := nat_of_ascii c in
  String "%" (String (hex_digit (n / 16)) (String (hex_digit (n mod 16)) EmptyString)).

Fixpoint quote (s : string) : string :=
  match s with
  | EmptyString => EmptyString
  | String c s' =>
      (if always_safe c || Ascii.eqb c "/" then String c EmptyString
       else percent_encode c) ++ quote s'
  end.

(** ** Module constants *)

Definition CHANGPEI_BOOK_URL (id : string) : string :=
  "https://www.gongzicp.com/novel-" ++ id ++ ".html".
Definition CHANGPEI_SEARCH_API (k : string) : string :=
  "https://www.gongzicp.com/webapi/search/novels?k=" ++ k ++ "&page=1".
Definition CHANGPEI_NOVEL_INFO (id : string) : string :=
  "https://www.gongzicp.com/webapi/novel/novelInfo?id=" ++ id.
Definition CHANGPEI_CHAPTER_LIST (nid : string) : string :=
  "https://www.gongzicp.com/webapi/novel/chapterGetList?nid=" ++ nid.
Definition CHANGPEI_NO_BOOKCOVER_URL : string :=
  "https://resourcecp-cdn.gongzicp.com/files/images/nocover.jpg".
Definition PROVIDER_ID : string := "changpei".
Definition SOURCE_PUBLISHER : string := "长佩文学".
Definition SMALL_STYLE : string := "?x-oss-process=style/small".
Definition DATE_FORMAT : string := "%Y-%m-%d %H:%M:%S".

(** ** Python operations on decoded values *)

Definition truthy (j : json) : bool :=
  match j with
  | JNull => false
  | JBool b => b
  | JNum n => negb (Z.eqb n 0)
  | JStr s => negb (String.eqb s EmptyString)
  | JArr l => match l with [] => false | _ => true end
  | JObj kv => match kv with [] => false | _ => true end
  end.

Definition eq_str (j : json) (s : string) : bool :=
  match j with
  | JStr s' => String.eqb s' s
  | _ => false
  end.

Definition eq_int (j : json) (n : Z) : bool :=
  match j with
  | JNum m => Z.eqb m n
  | _ => false
  end.

(** [k in j] *)
Definition py_contains (k : string) (j : json) : result bool :=
  match j with
  | JObj kv => Ok (match lookup k kv with Some _ => true | None => false end)
  | JArr l => Ok (existsb (fun x => eq_str x k) l)
  | JStr s => Ok (str_contains k s)
  | _ => Raise TypeError
  end.

(** [j[k]] with a string subscript *)
Definition py_getitem (j : json) (k : string) : result json :=
  match j with
  | JObj kv => match lookup k kv with Some v => Ok v | None => Raise (KeyError k) end
  | _ => Raise TypeError
  end.

(** [j.get(k, default)] *)
Definition py_get (j : json) (k : string) (default : json) : result json :=
  match j with
  | JObj kv => Ok (match lookup k kv with Some v => v | None => default end)
  | _ => Raise AttributeError
  end.

(** [len(j)] *)
Definition py_len (j : json) : result nat :=
  match j with
  | JArr l => Ok (length l)
  | JObj kv => Ok (length kv)
  | JStr s => Ok (length (utf8_chars s))
  | _ => Raise TypeError
  end.

(** The items a [for] loop over [j] visits. *)
Definition py_iter (j : json) : result (list json) :=
  match j with
  | JArr l => Ok l
  | JObj kv => Ok (map (fun p => JStr (fst p)) kv)
  | JStr s => Ok (map JStr (utf8_chars s))
  | _ => Raise TypeError
  end.

(** ["%d" % j] accepts numbers and booleans only. *)
Definition format_d (j : json) : result unit :=
  match j with
  | JNum _ | JBool _ => Ok tt
  | _ => Raise TypeError
  end.

Definition decimal (n : Z) : string := NilZero.string_of_int (Z.to_int n).

Section Repr.
(** [repr] of a [str] (quoting and escaping) is left to the interpreter. *)
Variable repr_str : string -> string.

Fixpoint py_repr (j : json) : string :=
  match j with
  | JNull => "None"
  | JBool true => "True"
  | JBool false => "False"
  | JNum n => decimal n
  | JStr s => repr_str s
  | JArr l => "[" ++ join ", " (map py_repr l) ++ "]"
  | JObj kv =>
      "{" ++ join ", " (map (fun p : string * json =>
                               let (k, v) := p in repr_str k ++ ": " ++ py_repr v) kv)
          ++ "}"
  end.

(** [str(j)] *)
Definition py_str (j : json) : string :=
  match j with
  | JStr s => s
  | _ => py_repr j
  end.
End Repr.

(** ** Collaborators supplied by the host *)

Record datetime : Type := mk_datetime {
  year : nat; month : nat; day : nat; hour : nat; minute : nat; second : nat
}.

(** The outside world of one call.  [open_novisit n url] is the body read
    from the [n]-th request of the call ([None]: the transport raised);
    [json_loads] is [raw.decode('utf-8')] followed by [json.loads];
    [strptime s fmt] is [datetime.strptime] ([None]: [ValueError]). *)
Record Env : Type := mk_env {
  open_novisit : nat -> json -> option string;
  json_loads : string -> option json;
  strptime : string -> string -> option datetime;
  repr_str : string -> string
}.

(** The host's [Metadata] object, as the attributes the plugin assigns. *)
Record Metadata : Type := mk_metadata {
  mi_title : json;
  mi_authors : list json;
  mi_identifiers : list (string * string);
  mi_comments : json;
  mi_publisher : string;
  mi_language : string;
  mi_tags : json;
  mi_url : string;
  mi_cover : json;
  mi_pubdate : option datetime
}.

Inductive level : Type := INFO | ERROR | EXCEPTION.

(** One constructor per logging call of the source, carrying its arguments. *)
Inductive message : Type :=
| NoChaptersFound (novel_id : string)
| FirstChapterPublishDate (novel_id : string) (publish_date : json)
| InvalidDateFormat (publish_date : json)
| ErrorGettingFirstChapter (e : exn)
| IdentifyWithId (cp_id api_url : string)
| ApiCallFailed (cp_id : string)
| ErrorUsingApi (e : exn)
| SearchWithTitle (normalized_title search_api_url : string)
| FoundBooks (count : json) (first_page : nat)
| CantFindBookId (i : nat)
| SearchHit (i : nat) (novel_id : string) (bTitle bAuthor : json)
| SearchApiFailed
| ErrorUsingSearchApi (e : exn)
| NoIdRunningIdentify
| NoResultAfterIdentify
| NoIdAfterIdentify
| GettingCover (api_url : string)
| FoundCoverUrl (cover_url : json)
| FailedCoverDownload (e : exn)
| CoverApiFailed (cp_id : string)
| ErrorUsingApiForCover (e : exn).


(** ** State and exceptions *)

(** What a call can change: the caller's result queue (items of type [Q]),
    the log, and the requests issued so far. *)
Record state (Q : Type) : Type := mk_state {
  queue : list Q;
  log : list (level * message);
  requests : list json
}.
Arguments mk_state {Q} _ _ _.
Arguments queue {Q} _.
Arguments log {Q} _.
Arguments requests {Q} _.

Definition M (Q A : Type) : Type := state Q -> result A * state Q.

Definition ret {Q A} (a : A) : M Q A := fun st => (Ok a, st).

Definition bind {Q A B} (m : M Q A) (f : A -> M Q B) : M Q B :=
  fun st =>
    match m st with
    | (Ok a, st') => f a st'
    | (Raise e, st') => (Raise e, st')
    end.

Definition lift {Q A} (r : result A) : M Q A := fun st => (r, st).

(** [try: m  except Exception as e: h e] *)
Definition try_except {Q A} (m : M Q A) (h : exn -> M Q A) : M Q A :=
  fun st =>
    match m st with
    | (Ok a, st') => (Ok a, st')
    | (Raise e, st') => h e st'
    end.

(** [try: m  except ValueError: h] *)
Definition try_except_ValueError {Q A} (m : M Q A) (h : M Q A) : M Q A :=
  fun st =>
    match m st with
    | (Ok a, st') => (Ok a, st')
    | (Raise e, st') => if is_ValueError e then h st' else (Raise e, st')
    end.

Definition log_msg {Q} (l : level) (m : message) : M Q unit :=
  fun st => (Ok tt, mk_state (queue st) (log st ++ [(l, m)]) (requests st)).

(** [result_queue.put(x)] *)
Definition put {Q} (x : Q) : M Q unit :=
  fun st => (Ok tt, mk_state (queue st ++ [x]) (log st) (requests st)).

Declare Scope monad_scope.
Delimit Scope monad_scope with monad.
Notation "x <- m ;; k" := (bind m (fun x => k))
  (at level 61, m at next level, right associativity) : monad_scope.
Notation "m ;; k" := (bind m (fun _ => k))
  (at level 61, right associativity) : monad_scope.
Open Scope monad_scope.

(** ** The plugin *)

(** Lines 283-284: drop the thumbnail style from a cover URL. *)
Definition strip_small_style (bCover : string) : string :=
  if str_contains SMALL_STYLE bCover then split_head SMALL_STYLE bCover else bCover.

(** The same two lines on whatever value the response carried: [in] and
    [.split] raise on the types that do not support them. *)
Definition normalize_cover (bCover : json) : result json :=
  rbind (py_contains SMALL_STYLE bCover) (fun found =>
    if found then
      match bCover with
      | JStr u => Ok (JStr (split_head SMALL_STYLE u))
      | _ => Raise AttributeError
      end
    else Ok bCover).

(** ['code' in data and data['code'] == 200] *)
Definition code_is_200 (data : json) : result bool :=
  and_then (py_contains "code" data)
           (rbind (py_getitem data "code") (fun c => Ok (eq_int c 200))).

(** Lines 206 and 369: [... and 'data' in data] *)
Definition detail_ok (data : json) : result bool :=
  and_then (code_is_200 data) (py_contains "data" data).

(** Lines 118 and 264: [... and 'list' in data['data']] *)
Definition list_ok (data : json) : result bool :=
  and_then (detail_ok data)
           (rbind (py_getitem data "data") (fun d => py_contains "list" d)).

(** Line 130: [chapter.get('order') == '1' and chapter.get('type') == 'item'] *)
Definition is_first_item (chapter : json) : result bool :=
  and_then (rbind (py_get chapter "order" JNull) (fun o => Ok (eq_str o "1")))
           (rbind (py_get chapter "type" JNull) (fun t => Ok (eq_str t "item"))).

(** Line 137: [chapter.get('type') == 'item'] *)
Definition is_item (chapter : json) : result bool :=
  rbind (py_get chapter "type" JNull) (fun t => Ok (eq_str t "item")).

(** [first_chapter = None; for chapter in items: if p(chapter): first_chapter
    = chapter; break] *)
Fixpoint first_where (p : json -> result bool) (items : list json) : result json :=
  match items with
  | [] => Ok JNull
  | chapter :: rest =>
      rbind (p chapter) (fun b => if b then Ok chapter else first_where p rest)
  end.

(** Lines 128-139: both scans for the first chapter. *)
Definition select_first_chapter (chapters : json) : result json :=
  rbind (py_iter chapters) (fun items =>
  rbind (first_where is_first_item items) (fun first_chapter =>
    if negb (truthy first_chapter) && truthy chapters
    then rbind (py_iter chapters) (first_where is_item)
    else Ok first_chapter)).

Section Plugin.
Variable E : Env.

(** [br.open_novisit(url, timeout=timeout).read()] *)
Definition br_read {Q} (url : json) : M Q string :=
  fun st =>
    let st' := mk_state (queue st) (log st) (requests st ++ [url]) in
    match open_novisit E (length (requests st)) url with
    | Some raw => (Ok raw, st')
    | None => (Raise URLError, st')
    end.

(** [self.get_json_from_response(raw.decode('utf-8'))] *)
Definition get_json_from_response {Q} (raw : string) : M Q json :=
  lift (match json_loads E raw with
        | Some data => Ok data
        | None => Raise JSONDecodeError
        end).

(** [datetime.strptime(publish_date, "%Y-%m-%d %H:%M:%S")] *)
Definition parse_publish_date (publish_date : json) : result datetime :=
  match publish_date with
  | JStr s =>
      match strptime E s DATE_FORMAT with
      | Some d => Ok d
      | None => Raise ValueError
      end
  | _ => Raise TypeError
  end.

(** Lines 106-153. *)
Definition get_first_chapter_publish_date {Q} (novel_id : string)
  : M Q (option datetime) :=
  let api_url := CHANGPEI_CHAPTER_LIST novel_id in
  try_except
    (raw <- br_read (JStr api_url) ;;
     data <- get_json_from_response (strip raw) ;;
     ok <- lift (list_ok data) ;;
     if ok : bool then
       chapters <- lift (rbind (py_getitem data "data")
                               (fun d => py_getitem d "list")) ;;
       if negb (truthy chapters) then
         log_msg INFO (NoChaptersFound novel_id) ;; ret None
       else
         first_chapter <- lift (select_first_chapter chapters) ;;
         if truthy first_chapter then
           publish_date <- lift (py_get first_chapter "public_date" JNull) ;;
           if truthy publish_date then
             log_msg INFO (FirstChapterPublishDate novel_id publish_date) ;;
             try_except_ValueError
               (d <- lift (parse_publish_date publish_date) ;; ret (Some d))
               (log_msg ERROR (InvalidDateFormat publish_date) ;; ret None)
           else ret None
         else ret None
     else ret None)
    (fun e => log_msg EXCEPTION (ErrorGettingFirstChapter e) ;; ret None).

(** Lines 195-247: the branch of [identify] taken for a non-empty id. *)
Definition identify_by_id (cp_id : string) : M Metadata unit :=
  let api_url := CHANGPEI_NOVEL_INFO cp_id in
  log_msg INFO (IdentifyWithId cp_id api_url) ;;
  try_except
    (raw <- br_read (JStr api_url) ;;
     data <- get_json_from_response (strip raw) ;;
     ok <- lift (detail_ok data) ;;
     if ok : bool then
       novel_data <- lift (py_getitem data "data") ;;
       title <- lift (py_get novel_data "novel_name" (JStr "")) ;;
       author <- lift (py_get novel_data "author_nickname" (JStr "")) ;;
       desc <- lift (py_get novel_data "novel_info" (JStr "")) ;;
       desc <- (if negb (truthy desc)
                then lift (py_get novel_data "novel_desc" (JStr ""))
                else ret desc) ;;
       tags <- lift (py_get novel_data "tag_list" (JArr [])) ;;
       cover_url <- lift (py_get novel_data "novel_cover" (JStr "")) ;;
       let cover_url := if negb (truthy cover_url)
                        then JStr CHANGPEI_NO_BOOKCOVER_URL else cover_url in
       bPublishDate <- get_first_chapter_publish_date cp_id ;;
       let mi := {| mi_title := title;
                    mi_authors := [author];
                    mi_identifiers := [(PROVIDER_ID, cp_id)];
                    mi_comments := desc;
                    mi_publisher := SOURCE_PUBLISHER;
                    mi_language := "zh_CN";
                    mi_tags := tags;
                    mi_url := CHANGPEI_BOOK_URL cp_id;
                    mi_cover := cover_url;
                    mi_pubdate := bPublishDate |} in
       put mi
     else log_msg ERROR (ApiCallFailed cp_id))
    (fun e => log_msg EXCEPTION (ErrorUsingApi e)).

(** Lines 269-306: the body of the loop over the search hits. *)
Definition search_hit (i : nat) (book : json) : M Metadata unit :=
  novel_id <- lift (py_get book "novel_id" (JStr "")) ;;
  if negb (truthy novel_id) then
    log_msg ERROR (CantFindBookId i)
  else
    let novel_id := py_str (repr_str E) novel_id in
    bTitle <- lift (py_get book "novel_name" (JStr "")) ;;
    bAuthor <- lift (py_get book "novel_author" (JStr "")) ;;
    bCover <- lift (py_get book "novel_cover" (JStr CHANGPEI_NO_BOOKCOVER_URL)) ;;
    bCover <- lift (normalize_cover bCover) ;;
    bTags <- lift (py_get book "novel_tag_arr" (JArr [])) ;;
    let bURL := CHANGPEI_BOOK_URL novel_id in
    comments <- lift (py_get book "novel_desc" (JStr "")) ;;
    let mi := {| mi_title := bTitle;
                 mi_authors := [bAuthor];
                 mi_identifiers := [(PROVIDER_ID, novel_id)];
                 mi_comments := comments;
                 mi_publisher := SOURCE_PUBLISHER;
                 mi_language := "zh_CN";
                 mi_tags := bTags;
                 mi_url := bURL;
                 mi_cover := bCover;
                 mi_pubdate := None |} in
    log_msg INFO (SearchHit i novel_id bTitle bAuthor) ;;
    put mi.

(** [for i, book in enumerate(books): ...], from index [i] on. *)
Fixpoint search_loop (i : nat) (books : list json) : M Metadata unit :=
  match books with
  | [] => ret tt
  | book :: rest => search_hit i book ;; search_loop (S i) rest
  end.

(** Lines 251-314: the branch of [identify] that searches by title.
    [title] is the UTF-8 text of the title, for which line 252 returns. *)
Definition search_by_title (title : option string) : M Metadata unit :=
  let normalized_title := match title with None => "" | Some t => t end in
  let search_api_url := CHANGPEI_SEARCH_API (quote normalized_title) in
  log_msg INFO (SearchWithTitle normalized_title search_api_url) ;;
  try_except
    (raw <- br_read (JStr search_api_url) ;;
     data <- get_json_from_response (strip raw) ;;
     ok <- lift (list_ok data) ;;
     if ok : bool then
       books <- lift (rbind (py_getitem data "data")
                            (fun d => py_getitem d "list")) ;;
       count <- lift (rbind (py_getitem data "data")
                            (fun d => py_getitem d "count")) ;;
       first_page <- lift (py_len books) ;;
       lift (format_d count) ;;
       log_msg INFO (FoundBooks count first_page) ;;
       items <- lift (py_iter books) ;;
       search_loop 0 items
     else log_msg ERROR SearchApiFailed)
    (fun e => log_msg EXCEPTION (ErrorUsingSearchApi e)).

(** Lines 183-314.  [abort], [authors] and [timeout] are not read. *)
Definition identify (title : option string) (identifiers : list (string * string))
  : M Metadata unit :=
  match lookup PROVIDER_ID identifiers with
  | Some cp_id =>
      if negb (String.eqb cp_id "") then identify_by_id cp_id
      else search_by_title title
  | None => search_by_title title
  end.

(** [rq = Queue(); m(rq)], followed by the draining loop of lines 338-343:
    the call runs on a private queue whose items are handed back. *)
Definition with_new_queue {Q Q' A} (m : M Q' A) : M Q (list Q') :=
  fun st =>
    match m (mk_state [] (log st) (requests st)) with
    | (Ok _, st') => (Ok (queue st'), mk_state (queue st) (log st') (requests st'))
    | (Raise e, st') => (Raise e, mk_state (queue st) (log st') (requests st'))
    end.

(** Lines 356-387: detail fetch and image download for a known id. *)
Definition fetch_cover (cp_id : string) : M string unit :=
  let api_url := CHANGPEI_NOVEL_INFO cp_id in
  log_msg INFO (GettingCover api_url) ;;
  try_except
    (raw <- br_read (JStr api_url) ;;
     data <- get_json_from_response (strip raw) ;;
     ok <- lift (detail_ok data) ;;
     if ok : bool then
       novel_data <- lift (py_getitem data "data") ;;
       cover_url <- lift (py_get novel_data "novel_cover" (JStr "")) ;;
       if truthy cover_url then
         log_msg INFO (FoundCoverUrl cover_url) ;;
         try_except
           (cdata <- br_read cover_url ;;
            if negb (String.eqb cdata "") then put cdata else ret tt)
           (fun e => log_msg EXCEPTION (FailedCoverDownload e))
       else ret tt
     else log_msg ERROR (CoverApiFailed cp_id))
    (fun e => log_msg EXCEPTION (ErrorUsingApiForCover e)).

(** Lines 352-387. *)
Definition cover_for (cp_id : option string) : M string unit :=
  match cp_id with
  | None => log_msg ERROR NoIdAfterIdentify
  | Some cp_id => fetch_cover cp_id
  end.

(** Lines 316-387.  [abort] is what [abort.is_set()] answers at line 335;
    the queue holds the image bytes of the [(self, cdata)] pairs. *)
Definition download_cover (abort : bool) (title : option string)
    (identifiers : list (string * string)) : M string unit :=
  match lookup PROVIDER_ID identifiers with
  | None =>
      log_msg INFO NoIdRunningIdentify ;;
      results <- with_new_queue (identify title identifiers) ;;
      if abort then ret tt
      else match results with
           | [] => log_msg ERROR NoResultAfterIdentify
           | first :: _ => cover_for (lookup PROVIDER_ID (mi_identifiers first))
           end
  | Some cp_id => cover_for (Some cp_id)
  end.
End Plugin.

(** ** URLs of a book *)

(** Lines 155-159. *)
Definition get_book_url (identifiers : list (string * string))
  : option (string * string * string) :=
  match lookup PROVIDER_ID identifiers with
  | Some cp_id =>
      if negb (String.eqb cp_id "") then Some (PROVIDER_ID, cp_id, CHANGPEI_BOOK_URL cp_id)
      else None
  | None => None
  end.

(** The fragment of [re] the module's pattern uses: single characters, and
    one captured greedy repetition.  A URL is ASCII text, on which the bytes
    of the string are its characters and [\d] is [0-9]. *)
Inductive atom : Type :=
| AnyChar
| Lit (c : ascii)
| Digit.

Inductive item : Type :=
| One (a : atom)
| Group (a : atom).

Definition match_atom (a : atom) (c : ascii) : bool :=
  match a with
  | AnyChar => negb (Ascii.eqb c "010")
  | Lit x => Ascii.eqb c x
  | Digit => (48 <=? nat_of_ascii c)%nat && (nat_of_ascii c <=? 57)%nat
  end.

(** [(a+)] followed by the continuation [k]: one [a], then as many more as
    still let [k] match, the longest first.  Returns the captured text and
    what is left of the input. *)
Fixpoint greedy (a : atom) (k : string -> option (string * string)) (s : string)
  : option (string * string) :=
  match s with
  | EmptyString => None
  | String c s' =>
      if match_atom a c then
        match greedy a k s' with
        | Some (g, r) => Some (String c g, r)
        | None =>
            match k s' with
            | Some (_, r) => Some (String c EmptyString, r)
            | None => None
            end
        end
      else None
  end.

(** A match of the items at the start of [s]: the text of the group and the
    rest of the input. *)
Fixpoint match_items (items : list item) (s : string) : option (string * string) :=
  match items with
  | [] => Some (EmptyString, s)
  | One a :: rest =>
      match s with
      | EmptyString => None
      | String c s' => if match_atom a c then match_items rest s' else None
      end
  | Group a :: rest => greedy a (match_items rest) s
  end.

Definition lits (s : string) : list item :=
  map (fun c => One (Lit c)) (list_ascii_of_string s).

(** [re.compile(".gongzicp\\.com\\/novel-(\\d+).html")] *)
Definition CHANGPEI_BOOK_URL_PATTERN : list item :=
  (One AnyChar :: lits "gongzicp" ++ One (Lit ".") :: lits "com" ++
   One (Lit "/") :: lits "novel-" ++ Group Digit :: One AnyChar :: lits "html")%list.

(** [pattern.findall(s)]: the groups of the successive matches, each search
    resuming where the previous match ended; [skip] characters of [s] belong
    to the previous match. *)
Fixpoint findall_from (pattern : list item) (skip : nat) (s : string) : list string :=
  match s with
  | EmptyString => []
  | String _ s' =>
      match skip with
      | S n => findall_from pattern n s'
      | O =>
          match match_items pattern s with
          | Some (g, r) => g :: findall_from pattern (String.length s' - String.length r) s'
          | None => findall_from pattern 0 s'
          end
      end
  end.

Definition findall (pattern : list item) (s : string) : list string :=
  findall_from pattern 0 s.

(** Lines 172-176. *)
Definition id_from_url (url : string) : option string :=
  match findall CHANGPEI_BOOK_URL_PATTERN url with
  | [res] => Some res
  | _ => None
  end.

(** Lines 161-162. *)
Definition get_book_url_name (idtype idval url : string) : string := SOURCE_PUBLISHER.

(** Lines 165-170. *)
Definition get_cached_cover_url (identifiers : list (string * string)) : option string :=
  None.

(** * Vocabulary of the properties *)

Local Open Scope list_scope.

(** [st'] is [st] with items satisfying [P] put on the queue, lines added
    to the log and requests satisfying [R] issued. *)
Definition extends {Q} (P : Q -> Prop) (R : json -> Prop) (st st' : state Q) : Prop :=
  exists new l r,
    queue st' = queue st ++ new /\ Forall P new /\
    log st' = log st ++ l /\
    requests st' = requests st ++ r /\ Forall R r.

Definition frame {Q A} (P : Q -> Prop) (R : json -> Prop) (m : M Q A) : Prop :=
  forall st, extends P R st (snd (m st)).

Definition returns_normally {Q A} (m : M Q A) : Prop :=
  forall st, exists a, fst (m st) = Ok a.

Definition external_id (mi : Metadata) : option string :=
  lookup PROVIDER_ID (mi_identifiers mi).

Definition has_external_id (mi : Metadata) : Prop :=
  exists id, external_id mi = Some id /\ id <> EmptyString.

Definition is_object (j : json) : Prop := exists kv, j = JObj kv.

(** [c.get(k)] on an entry that is an object. *)
Definition field (k : string) (c : json) : json :=
  match c with
  | JObj kv => match lookup k kv with Some v => v | None => JNull end
  | _ => JNull
  end.

(** The rule in the words of the specification: the entry whose sequence
    marker equals the first position and whose type marks it as an item ... *)
Definition order_1_item (c : json) : bool :=
  eq_str (field "order" c) "1" && eq_str (field "type" c) "item".

(** ... and the fallback: an entry of type "item". *)
Definition type_item (c : json) : bool := eq_str (field "type" c) "item".

Definition spec_first_chapter (chapters : list json) : option json :=
  match find order_1_item chapters with
  | Some c => Some c
  | None => find type_item chapters
  end.

Definition or_null (c : option json) : json :=
  match c with Some c => c | None => JNull end.

(** The [n]-th request of the call, made for [url], is answered by a success
    envelope: an object with [code] 200 whose [data] is the object [d]. *)
Definition answers (E : Env) (n : nat) (url : string) (d : list (string * json)) : Prop :=
  exists raw kv,
    open_novisit E n (JStr url) = Some raw /\
    json_loads E (strip raw) = Some (JObj kv) /\
    lookup "code" kv = Some (JNum 200) /\
    lookup "data" kv = Some (JObj d).

(** The publish date the first chapter carries: its [public_date], when that
    is a non-empty string the pattern accepts. *)
Definition publish_date_of (E : Env) (first_chapter : option json) : option datetime :=
  match first_chapter with
  | Some c =>
      match field "public_date" c with
      | JStr s => if String.eqb s "" then None else strptime E s DATE_FORMAT
      | _ => None
      end
  | None => None
  end.

Definition get_or (k : string) (default : json) (kv : list (string * json)) : json :=
  match lookup k kv with Some v => v | None => default end.

(** The record lines 210-238 build from the detail payload [novel_data]. *)
Definition detail_record (cp_id : string) (novel_data : list (string * json))
    (bPublishDate : option datetime) : Metadata :=
  {| mi_title := get_or "novel_name" (JStr "") novel_data;
     mi_authors := [get_or "author_nickname" (JStr "") novel_data];
     mi_identifiers := [(PROVIDER_ID, cp_id)];
     mi_comments :=
       (if negb (truthy (get_or "novel_info" (JStr "") novel_data))
        then get_or "novel_desc" (JStr "") novel_data
        else get_or "novel_info" (JStr "") novel_data);
     mi_publisher := SOURCE_PUBLISHER;
     mi_language := "zh_CN";
     mi_tags := get_or "tag_list" (JArr []) novel_data;
     mi_url := CHANGPEI_BOOK_URL cp_id;
     mi_cover :=
       (if negb (truthy (get_or "novel_cover" (JStr "") novel_data))
        then JStr CHANGPEI_NO_BOOKCOVER_URL
        else get_or "novel_cover" (JStr "") novel_data);
     mi_pubdate := bPublishDate |}.

(** The state in which the enrichment starts: the detail request is made. *)
Definition after_detail (cp_id : string) (st : state Metadata) : state Metadata :=
  mk_state (queue st)
           (log st ++ [(INFO, IdentifyWithId cp_id (CHANGPEI_NOVEL_INFO cp_id))])
           (requests st ++ [JStr (CHANGPEI_NOVEL_INFO cp_id)]).

(** The record lines 277-300 build from a search hit [book] whose cover
    came out of the normalisation as [bCover]. *)
Definition search_record (r : string -> string) (book : list (string * json))
    (bCover : json) : Metadata :=
  {| mi_title := get_or "novel_name" (JStr "") book;
     mi_authors := [get_or "novel_author" (JStr "") book];
     mi_identifiers := [(PROVIDER_ID, py_str r (get_or "novel_id" (JStr "") book))];
     mi_comments := get_or "novel_desc" (JStr "") book;
     mi_publisher := SOURCE_PUBLISHER;
     mi_language := "zh_CN";
     mi_tags := get_or "novel_tag_arr" (JArr []) book;
     mi_url := CHANGPEI_BOOK_URL (py_str r (get_or "novel_id" (JStr "") book));
     mi_cover := bCover;
     mi_pubdate := None |}.

(** What one pass of the loop body does with an entry: skip it ([Ok None]),
    put a record ([Ok (Some mi)]) or raise. *)
Definition hit_record (r : string -> string) (book : json) : result (option Metadata) :=
  match book with
  | JObj kv =>
      if negb (truthy (get_or "novel_id" (JStr "") kv)) then Ok None
      else rbind (normalize_cover (get_or "novel_cover" (JStr CHANGPEI_NO_BOOKCOVER_URL) kv))
                 (fun bCover => Ok (Some (search_record r kv bCover)))
  | _ => Raise AttributeError
  end.

Definition record_of (r : string -> string) (book : json) : option Metadata :=
  match hit_record r book with
  | Ok (Some mi) => Some mi
  | _ => None
  end.

(** The records of the entries that yield one, in the order of the entries. *)
Fixpoint records_of (r : string -> string) (books : list json) : list Metadata :=
  match books with
  | [] => []
  | book :: rest =>
      match record_of r book with
      | Some mi => mi :: records_of r rest
      | None => records_of r rest
      end
  end.

(** An entry with an empty or missing id. *)
Definition lacks_id (book : json) : Prop :=
  exists kv, book = JObj kv /\ truthy (get_or "novel_id" (JStr "") kv) = false.

(** An entry the loop body handles without raising: an object whose cover,
    when present, is a string. *)
Definition well_formed_hit (book : json) : Prop :=
  exists kv, book = JObj kv /\
    (lookup "novel_cover" kv = None \/ exists u, lookup "novel_cover" kv = Some (JStr u)).

Definition normalized (title : option string) : string :=
  match title with None => EmptyString | Some t => t end.

Definition search_url (title : option string) : string :=
  CHANGPEI_SEARCH_API (quote (normalized title)).

(** The entries of the upstream response list, as the loop of a search made
    in state [st] visits them; empty when the response carries no list. *)
Definition upstream_list (E : Env) (title : option string) (st : state Metadata)
  : list json :=
  match open_novisit E (length (requests st)) (JStr (search_url title)) with
  | Some raw =>
      match json_loads E (strip raw) with
      | Some data =>
          match rbind (rbind (py_getitem data "data") (fun d => py_getitem d "list"))
                      py_iter with
          | Ok items => items
          | Raise _ => []
          end
      | None => []
      end
  | None => []
  end.

(** The three ways the JSON fetch made as the [n]-th request can fail:
    the transport raises, the body is not JSON, or the envelope is an object
    without [code] 200 or without [data]. *)
Inductive fetch_error (E : Env) (n : nat) (url : string) : Prop :=
| transport_error :
    open_novisit E n (JStr url) = None -> fetch_error E n url
| malformed_json raw :
    open_novisit E n (JStr url) = Some raw ->
    json_loads E (strip raw) = None -> fetch_error E n url
| upstream_failure raw kv :
    open_novisit E n (JStr url) = Some raw ->
    json_loads E (strip raw) = Some (JObj kv) ->
    lookup "code" kv <> Some (JNum 200) \/ lookup "data" kv = None ->
    fetch_error E n url.

Definition no_id (identifiers : list (string * string)) : Prop :=
  lookup PROVIDER_ID identifiers = None \/
  lookup PROVIDER_ID identifiers = Some EmptyString.

(** ** A small world to run the plugin in *)

Definition decoded_bodies : list (string * json) :=
  [ ("detail",
     JObj [("code", JNum 200);
           ("data", JObj [("novel_name", JStr "Rain"); ("author_nickname", JStr "Ann");
                          ("tag_list", JArr [JStr "he"]);
                          ("novel_cover", JStr "http://c/1.jpg")])]);
    ("chapters",
     JObj [("code", JNum 200);
           ("data", JObj [("list",
              JArr [JObj [("type", JStr "volume"); ("order", JStr "0")];
                    JObj [("type", JStr "item"); ("order", JStr "2");
                          ("public_date", JStr "2020-01-02 03:04:05")];
                    JObj [("type", JStr "item"); ("order", JStr "3");
                          ("public_date", JStr "2021-01-01 00:00:00")]])])]);
    ("baddate",
     JObj [("code", JNum 200);
           ("data", JObj [("list",
              JArr [JObj [("type", JStr "item"); ("order", JStr "1");
                          ("public_date", JStr "soon")]])])]);
    ("search",
     JObj [("code", JNum 200);
           ("data", JObj [("count", JNum 3);
                          ("list",
              JArr [JObj [("novel_id", JNum 12);
                          ("novel_cover", JStr "http://c/12.jpg?x-oss-process=style/small")];
                    JObj [("novel_name", JStr "nameless")];
                    JObj [("novel_id", JStr "7")]])])]);
    ("nocount",
     JObj [("code", JNum 200);
           ("data", JObj [("list", JArr [JObj [("novel_id", JNum 12)]])])]);
    ("refused", JObj [("code", JNum 500)]) ].

Definition known_dates : list (string * datetime) :=
  [ ("2020-01-02 03:04:05", mk_datetime 2020 1 2 3 4 5) ].

(** A world that serves [pages] by URL, whatever the position of the request. *)
Definition world (pages : list (string * string)) : Env :=
  {| open_novisit := fun _ url =>
       match url with
       | JStr u => lookup u pages
       | _ => None
       end;
     json_loads := fun raw => lookup raw decoded_bodies;
     strptime := fun s _ => lookup s known_dates;
     repr_str := fun s => ("'" ++ s ++ "'")%string |}.

Definition good_world : Env :=
  world [ (CHANGPEI_NOVEL_INFO "42", "detail");
          (CHANGPEI_CHAPTER_LIST "42", "chapters");
          (search_url (Some "a"), "search");
          (CHANGPEI_NOVEL_INFO "12", "detail");
          ("http://c/1.jpg", "IMG") ].

Definition bad_date_world : Env :=
  world [ (CHANGPEI_NOVEL_INFO "42", "detail");
          (CHANGPEI_CHAPTER_LIST "42", "baddate") ].

Definition no_count_world : Env :=
  world [ (search_url (Some "a"), "nocount") ].


Definition unreachable_world : Env := world [].

Definition start {Q} : state Q := mk_state [] [] [].

Definition detail_payload : list (string * json) :=
  [("novel_name", JStr "Rain"); ("author_nickname", JStr "Ann");
   ("tag_list", JArr [JStr "he"]); ("novel_cover", JStr "http://c/1.jpg")].

(** The chapter entry the enrichment reads carries no usable date: its
    [public_date] is absent, empty, not a string, or a string the pattern
    rejects. *)
Definition no_usable_date (E : Env) (c : json) : Prop :=
  forall s, field "public_date" c = JStr s ->
            s = EmptyString \/ strptime E s DATE_FORMAT = None.

Definition demo_chapters : list json :=
  [JObj [("type", JStr "volume"); ("order", JStr "0")];
   JObj [("type", JStr "item"); ("order", JStr "2");
         ("public_date", JStr "2020-01-02 03:04:05")];
   JObj [("type", JStr "item"); ("order", JStr "3");
         ("public_date", JStr "2021-01-01 00:00:00")]].

Definition demo_hits : list json :=
  [JObj [("novel_id", JNum 12);
         ("novel_cover", JStr "http://c/12.jpg?x-oss-process=style/small")];
   JObj [("novel_name", JStr "nameless")];
   JObj [("novel_id", JStr "7")]].

(** The nested [identify] of lines 331-334, run on its private queue. *)
Definition nested_identify (E : Env) (title : option string)
    (identifiers : list (string * string)) (st : state string)
  : result unit * state Metadata :=
  identify E title identifiers
           (mk_state [] (log st ++ [(INFO, NoIdRunningIdentify)]) (requests st)).


(** ** Identifiers in URLs *)

Definition is_digit (c : ascii) : bool := match_atom Digit c.

Fixpoint all_digits (s : string) : bool :=
  match s with
  | EmptyString => true
  | String c s' => is_digit c && all_digits s'
  end.

(** A catalog identifier as the site writes it: a non-empty run of digits. *)
Definition numeric_id (id : string) : Prop :=
  id <> EmptyString /\ all_digits id = true.

Fixpoint is_ascii (s : string) : bool :=
  match s with
  | EmptyString => true
  | String c s' => (nat_of_ascii c <? 128)%nat && is_ascii s'
  end.

(** What every record of the plugin looks like around its identifier. *)
Definition canonical_record (mi : Metadata) : Prop :=
  exists id,
    id <> EmptyString /\
    mi_identifiers mi = [(PROVIDER_ID, id)] /\
    mi_url mi = CHANGPEI_BOOK_URL id /\
    mi_publisher mi = SOURCE_PUBLISHER /\
    mi_language mi = "zh_CN"%string /\
    length (mi_authors mi) = 1.

(** The state in which [download_cover] goes on after the nested identify. *)
Definition after_nested (E : Env) (title : option string)
    (identifiers : list (string * string)) (st : state string) : state string :=
  mk_state (queue st)
           (log (snd (nested_identify E title identifiers st)))
           (requests (snd (nested_identify E title identifiers st))).

(** Characters [quote] lets through or produces. *)
Definition url_safe (c : ascii) : bool :=
  always_safe c || Ascii.eqb c "/" || Ascii.eqb c "%".

Fixpoint string_forall (p : ascii -> bool) (s : string) : bool :=
  match s with
  | EmptyString => true
  | String c s' => p c && string_forall p s'
  end.

Definition no_chapter_world : Env :=
  world [ (CHANGPEI_NOVEL_INFO "42", "detail"%string) ].

Definition refused_chapter_world : Env :=
  world [ (CHANGPEI_NOVEL_INFO "42", "detail"%string);
          (CHANGPEI_CHAPTER_LIST "42", "refused"%string) ].

(** Further decoded bodies, and the world that serves them. *)
Definition more_bodies : list (string * json) :=
  [ ("volumes",
     JObj [("code", JNum 200);
           ("data", JObj [("list",
              JArr [JObj [("type", JStr "volume"); ("order", JStr "1")]])])]);
    ("textcount",
     JObj [("code", JNum 200);
           ("data", JObj [("count", JStr "3");
                          ("list", JArr [JObj [("novel_id", JNum 12)]])])]);
    ("broken",
     JObj [("code", JNum 200);
           ("data", JObj [("count", JNum 3);
                          ("list", JArr [JObj [("novel_id", JNum 12)];
                                         JStr "oops";
                                         JObj [("novel_id", JNum 7)]])])]);
    ("coverless",
     JObj [("code", JNum 200);
           ("data", JObj [("novel_name", JStr "Rain")])]) ].

Definition world_of (pages : list (string * string)) (bodies : list (string * json))
  : Env :=
  {| open_novisit := fun _ url =>
       match url with
       | JStr u => lookup u pages
       | _ => None
       end;
     json_loads := fun raw => lookup raw bodies;
     strptime := fun s _ => lookup s known_dates;
     repr_str := fun s => ("'" ++ s ++ "'")%string |}.

(** ** Titles *)

(** The strings of the model are UTF-8 text.  [utf8_from pending lo hi s]
    checks that [s] continues a well-formed sequence in which [pending]
    continuation bytes are still due, the next of them between [lo] and
    [hi]. *)
Fixpoint utf8_from (pending lo hi : nat) (s : string) : bool :=
  match s with
  | EmptyString => (pending =? 0)%nat
  | String c r =>
      let n := nat_of_ascii c in
      match pending with
      | O =>
          if (n <? 128)%nat then utf8_from 0 128 191 r
          else if ((194 <=? n) && (n <=? 223))%nat then utf8_from 1 128 191 r
          else if (n =? 224)%nat then utf8_from 2 160 191 r
          else if (n =? 237)%nat then utf8_from 2 128 159 r
          else if ((225 <=? n) && (n <=? 239))%nat then utf8_from 2 128 191 r
          else if (n =? 240)%nat then utf8_from 3 144 191 r
          else if ((241 <=? n) && (n <=? 243))%nat then utf8_from 3 128 191 r
          else if (n =? 244)%nat then utf8_from 3 128 143 r
          else false
      | S k => ((lo <=? n) && (n <=? hi))%nat && utf8_from k 128 191 r
      end
  end.

(** [title.encode('utf-8')] succeeds: the title is the UTF-8 text of a [str],
    which a [str] holding a lone surrogate (bytes ED A0..BF ..) does not
    have.  On such a title [quote] at line 252 raises, outside the [try] of
    line 257; the model, whose [quote] works on the encoded text, is the
    code's behaviour for the titles that can be encoded. *)
Definition encodable (s : string) : bool := utf8_from 0 128 191 s.

(** * Properties *)

Arguments CHANGPEI_BOOK_URL : simpl never.
Arguments CHANGPEI_SEARCH_API : simpl never.
Arguments CHANGPEI_NOVEL_INFO : simpl never.
Arguments CHANGPEI_CHAPTER_LIST : simpl never.
Arguments strip : simpl never.
Arguments quote : simpl never.

(** ** Cover URL normalisation *)

Lemma starts_with_empty_target pat :
  starts_with pat EmptyString = true -> pat = EmptyString.
Proof. destruct pat; simpl; [reflexivity | discriminate]. Qed.

(** A pattern that starts the text before the first occurrence would start
    the text itself: the head is cut where the pattern begins. *)
Lemma starts_with_split_head sep pat s :
  starts_with pat (split_head sep s) = true -> starts_with pat s = true.
Proof.
  revert pat. induction s as [|c s IH]; intros pat H.
  - simpl in H. destruct (starts_with sep EmptyString); exact H.
  - simpl in H. destruct (starts_with sep (String c s)) eqn:Hs.
    + apply starts_with_empty_target in H. subst pat. reflexivity.
    + destruct pat as [|a pat]; [reflexivity|].
      simpl in H |- *. apply andb_true_iff in H as [Ha Hp].
      rewrite Ha. simpl. apply IH. exact Hp.
Qed.

Lemma split_head_no_occurrence sep s :
  sep <> EmptyString -> str_contains sep (split_head sep s) = false.
Proof.
  intros Hne. induction s as [|c s IH].
  - simpl. destruct (starts_with sep EmptyString) eqn:Hs; simpl.
    + apply starts_with_empty_target in Hs. contradiction.
    + rewrite Hs. reflexivity.
  - simpl. destruct (starts_with sep (String c s)) eqn:Hs.
    + simpl. destruct sep; [contradiction | reflexivity].
    + change (str_contains sep (String c (split_head sep s)))
        with (starts_with sep (String c (split_head sep s))
              || str_contains sep (split_head sep s)).
      rewrite IH, orb_false_r.
      destruct (starts_with sep (String c (split_head sep s))) eqn:Hp; [|reflexivity].
      assert (Hfull : starts_with sep (String c s) = true).
      { apply (starts_with_split_head sep). simpl split_head. rewrite Hs. exact Hp. }
      congruence.
Qed.

Lemma small_style_nonempty : SMALL_STYLE <> EmptyString.
Proof. discriminate. Qed.

Lemma normalize_cover_str u :
  normalize_cover (JStr u) = Ok (JStr (strip_small_style u)).
Proof.
  unfold normalize_cover, strip_small_style, py_contains, rbind.
  destruct (str_contains SMALL_STYLE u); reflexivity.
Qed.

Lemma strip_small_style_clean u :
  str_contains SMALL_STYLE (strip_small_style u) = false.
Proof.
  unfold strip_small_style.
  destruct (str_contains SMALL_STYLE u) eqn:Hc; [|exact Hc].
  apply split_head_no_occurrence, small_style_nonempty.
Qed.

(** ** Frames: what a computation may add to the state *)

Section Frames.
Context {Q : Type}.
Variable P : Q -> Prop.
Variable R : json -> Prop.

Lemma extends_refl st : extends P R st st.
Proof.
  exists [], [], []. rewrite !app_nil_r. repeat split; constructor.
Qed.

Lemma extends_trans st1 st2 st3 :
  extends P R st1 st2 -> extends P R st2 st3 -> extends P R st1 st3.
Proof.
  intros (n1 & l1 & r1 & Hq1 & Hp1 & Hl1 & Hr1 & HR1)
         (n2 & l2 & r2 & Hq2 & Hp2 & Hl2 & Hr2 & HR2).
  exists (n1 ++ n2), (l1 ++ l2), (r1 ++ r2).
  rewrite Hq2, Hq1, Hl2, Hl1, Hr2, Hr1, !app_assoc.
  repeat split; apply Forall_app; split; assumption.
Qed.

Lemma frame_ret {A} (a : A) : frame P R (ret a).
Proof. intros st. apply extends_refl. Qed.

Lemma frame_lift {A} (r : result A) : frame P R (lift r).
Proof. intros st. apply extends_refl. Qed.

Lemma frame_log_msg lv m : frame P R (log_msg lv m).
Proof.
  intros st. exists [], [(lv, m)], []. simpl. rewrite !app_nil_r.
  repeat split; constructor.
Qed.

Lemma frame_put x : P x -> frame P R (put x).
Proof.
  intros Hx st. exists [x], [], []. simpl. rewrite !app_nil_r.
  repeat split; repeat constructor. exact Hx.
Qed.

Lemma frame_br_read E url : R url -> frame P R (br_read E url).
Proof.
  intros Hu st. unfold br_read.
  destruct (open_novisit E (length (requests st)) url);
    exists [], [], [url]; simpl; rewrite !app_nil_r;
    repeat split; repeat constructor; exact Hu.
Qed.

Lemma frame_bind {A B} (m : M Q A) (f : A -> M Q B) :
  frame P R m -> (forall a, frame P R (f a)) -> frame P R (bind m f).
Proof.
  intros Hm Hf st. unfold bind. specialize (Hm st).
  destruct (m st) as [[a|e] st1]; simpl in Hm.
  - eapply extends_trans; [exact Hm | apply Hf].
  - exact Hm.
Qed.

Lemma frame_try_except {A} (m : M Q A) (h : exn -> M Q A) :
  frame P R m -> (forall e, frame P R (h e)) -> frame P R (try_except m h).
Proof.
  intros Hm Hh st. unfold try_except. specialize (Hm st).
  destruct (m st) as [[a|e] st1]; simpl in Hm.
  - exact Hm.
  - eapply extends_trans; [exact Hm | apply Hh].
Qed.

Lemma frame_try_except_ValueError {A} (m h : M Q A) :
  frame P R m -> frame P R h -> frame P R (try_except_ValueError m h).
Proof.
  intros Hm Hh st. unfold try_except_ValueError. specialize (Hm st).
  destruct (m st) as [[a|e] st1]; simpl in Hm; [exact Hm|].
  destruct (is_ValueError e); [|exact Hm].
  eapply extends_trans; [exact Hm | apply Hh].
Qed.
End Frames.

(** A call on a private queue leaves the caller's queue as it was. *)
Lemma frame_with_new_queue {Q Q' A} (P : Q -> Prop) (P' : Q' -> Prop) R (m : M Q' A) :
  frame P' R m -> frame P R (with_new_queue m).
Proof.
  intros Hm st. unfold with_new_queue.
  destruct (Hm (mk_state [] (log st) (requests st)))
    as (new & l & r & _ & _ & Hl & Hr & HR).
  destruct (m (mk_state [] (log st) (requests st))) as [[a|e] st1];
    simpl in *; exists [], l, r; rewrite app_nil_r; repeat split;
    try assumption; constructor.
Qed.

(** ** Calls that return normally *)

Lemma returns_ret {Q A} (a : A) : returns_normally (@ret Q A a).
Proof. intros st. exists a. reflexivity. Qed.

Lemma returns_log_msg {Q} lv m : returns_normally (@log_msg Q lv m).
Proof. intros st. exists tt. reflexivity. Qed.

Lemma returns_put {Q} (x : Q) : returns_normally (put x).
Proof. intros st. exists tt. reflexivity. Qed.

Lemma returns_bind {Q A B} (m : M Q A) (f : A -> M Q B) :
  returns_normally m -> (forall a, returns_normally (f a)) ->
  returns_normally (bind m f).
Proof.
  intros Hm Hf st. unfold bind. destruct (Hm st) as [a Ha].
  destruct (m st) as [r st1]. simpl in Ha. subst r. apply Hf.
Qed.

(** A handler that returns normally makes the whole [try] return normally,
    whatever the guarded block does. *)
Lemma returns_try_except {Q A} (m : M Q A) (h : exn -> M Q A) :
  (forall e, returns_normally (h e)) -> returns_normally (try_except m h).
Proof.
  intros Hh st. unfold try_except.
  destruct (m st) as [[a|e] st1]; [exists a; reflexivity | apply Hh].
Qed.

Lemma returns_with_new_queue {Q Q' A} (m : M Q' A) :
  returns_normally m -> returns_normally (@with_new_queue Q Q' A m).
Proof.
  intros Hm st. unfold with_new_queue.
  destruct (Hm (mk_state [] (log st) (requests st))) as [a Ha].
  destruct (m (mk_state [] (log st) (requests st))) as [r st1].
  simpl in Ha. subst r. eexists. reflexivity.
Qed.

Create HintDb frames.
#[export] Hint Resolve frame_ret frame_lift frame_log_msg frame_bind
  frame_try_except frame_try_except_ValueError : frames.

Create HintDb normal.
#[export] Hint Resolve returns_ret returns_log_msg returns_put returns_bind
  returns_try_except returns_with_new_queue : normal.

Ltac frame_step :=
  match goal with
  | |- frame _ _ (bind _ _) => apply frame_bind; [|intro]
  | |- frame _ _ (try_except _ _) => apply frame_try_except; [|intro]
  | |- frame _ _ (try_except_ValueError _ _) => apply frame_try_except_ValueError
  | |- frame _ _ (ret _) => apply frame_ret
  | |- frame _ _ (lift _) => apply frame_lift
  | |- frame _ _ (get_json_from_response _ _) => apply frame_lift
  | |- frame _ _ (log_msg _ _) => apply frame_log_msg
  | |- frame _ _ (br_read _ _) => apply frame_br_read
  | |- frame _ _ (put _) => apply frame_put
  | |- frame _ _ (if ?b then _ else _) => destruct b eqn:?
  end.

Ltac normal_step :=
  match goal with
  | |- returns_normally (bind _ _) => apply returns_bind; [|intro]
  | |- returns_normally (try_except _ _) => apply returns_try_except; intro
  | |- returns_normally (ret _) => apply returns_ret
  | |- returns_normally (log_msg _ _) => apply returns_log_msg
  | |- returns_normally (put _) => apply returns_put
  | |- returns_normally (with_new_queue _) => apply returns_with_new_queue
  | |- returns_normally (if ?b then _ else _) => destruct b
  end.

(** ** The provider identifier of a record *)

Lemma decimal_nonempty n : decimal n <> EmptyString.
Proof.
  unfold decimal. destruct n as [|p|p]; simpl; try discriminate.
  destruct (Pos.to_uint p); simpl; discriminate.
Qed.

(** [str] of a truthy value is never the empty string. *)
Lemma py_str_truthy r j : truthy j = true -> py_str r j <> EmptyString.
Proof.
  destruct j as [|b|n|s|l|kv]; simpl; intros H; try discriminate.
  - destruct b; discriminate.
  - apply decimal_nonempty.
  - destruct (String.eqb_spec s EmptyString); [discriminate | assumption].
Qed.

Section PluginFrames.
Variable E : Env.

Lemma frame_get_first_chapter_publish_date {Q} (P : Q -> Prop) (R : json -> Prop) id :
  R (JStr (CHANGPEI_CHAPTER_LIST id)) ->
  frame P R (get_first_chapter_publish_date E id).
Proof.
  intros HR. unfold get_first_chapter_publish_date.
  repeat frame_step. exact HR.
Qed.

Lemma returns_get_first_chapter_publish_date {Q} id :
  returns_normally (@get_first_chapter_publish_date E Q id).
Proof.
  unfold get_first_chapter_publish_date. repeat normal_step.
Qed.

Lemma frame_identify_by_id (R : json -> Prop) cp_id :
  cp_id <> EmptyString ->
  R (JStr (CHANGPEI_NOVEL_INFO cp_id)) -> R (JStr (CHANGPEI_CHAPTER_LIST cp_id)) ->
  frame has_external_id R (identify_by_id E cp_id).
Proof.
  intros Hid H1 H2. unfold identify_by_id.
  repeat first [ apply frame_get_first_chapter_publish_date | frame_step ];
    try assumption.
  exists cp_id. split; [reflexivity | exact Hid].
Qed.

Lemma frame_search_hit (R : json -> Prop) i book :
  frame has_external_id R (search_hit E i book).
Proof.
  unfold search_hit. repeat frame_step.
  eexists. split; [reflexivity|].
  apply py_str_truthy. apply negb_false_iff. assumption.
Qed.

Lemma frame_search_loop (R : json -> Prop) books :
  forall i, frame has_external_id R (search_loop E i books).
Proof.
  induction books as [|book rest IH]; intros i; simpl.
  - apply frame_ret.
  - apply frame_bind; [apply frame_search_hit | intros _; apply IH].
Qed.

Lemma frame_search_by_title (R : json -> Prop) title :
  (forall u, R (JStr (CHANGPEI_SEARCH_API u))) ->
  frame has_external_id R (search_by_title E title).
Proof.
  intros HR. unfold search_by_title.
  repeat first [ apply frame_search_loop | frame_step ]. apply HR.
Qed.

Lemma frame_identify title identifiers :
  frame has_external_id (fun _ => True) (identify E title identifiers).
Proof.
  unfold identify.
  destruct (lookup PROVIDER_ID identifiers) as [cp_id|].
  - destruct (String.eqb_spec cp_id EmptyString); simpl.
    + apply frame_search_by_title. trivial.
    + apply frame_identify_by_id; trivial.
  - apply frame_search_by_title. trivial.
Qed.

Lemma returns_identify title identifiers :
  returns_normally (identify E title identifiers).
Proof.
  unfold identify, identify_by_id, search_by_title.
  destruct (lookup PROVIDER_ID identifiers) as [cp_id|];
    [destruct (negb (cp_id =? ""))%string|]; repeat normal_step.
Qed.



End PluginFrames.

(** ** Selecting the first chapter *)

Lemma is_first_item_object c :
  is_object c -> is_first_item c = Ok (order_1_item c).
Proof.
  intros [kv ->]. unfold is_first_item, order_1_item, field, py_get, rbind, and_then.
  destruct (eq_str _ "1"); reflexivity.
Qed.

Lemma is_item_object c : is_object c -> is_item c = Ok (type_item c).
Proof. intros [kv ->]. reflexivity. Qed.

Lemma first_where_find p q items :
  (forall c, In c items -> p c = Ok (q c)) ->
  first_where p items = Ok (or_null (find q items)).
Proof.
  induction items as [|c rest IH]; intros Hp; [reflexivity|].
  simpl. rewrite (Hp c (or_introl eq_refl)). simpl.
  destruct (q c); [reflexivity|].
  apply IH. intros c' Hin. apply Hp. right. exact Hin.
Qed.

Lemma order_1_item_truthy c : order_1_item c = true -> truthy c = true.
Proof.
  unfold order_1_item, field. destruct c as [| | | | |kv]; try discriminate.
  destruct kv; [discriminate | reflexivity].
Qed.

Lemma select_first_chapter_spec chapters :
  Forall is_object chapters ->
  select_first_chapter (JArr chapters) = Ok (or_null (spec_first_chapter chapters)).
Proof.
  intros Hobj. rewrite Forall_forall in Hobj.
  unfold select_first_chapter, spec_first_chapter. simpl py_iter. simpl rbind.
  rewrite (first_where_find is_first_item order_1_item)
    by (intros c Hc; apply is_first_item_object, Hobj, Hc).
  simpl rbind.
  destruct (find order_1_item chapters) as [c|] eqn:Hfind.
  - apply find_some in Hfind as [_ Hc].
    simpl or_null. rewrite (order_1_item_truthy c Hc). reflexivity.
  - simpl or_null. simpl truthy. simpl negb.
    destruct chapters as [|c0 rest]; [reflexivity|].
    simpl andb. cbv iota.
    apply first_where_find.
    intros c Hc. apply is_item_object, Hobj, Hc.
Qed.

(** With no entry of order "1" the first scan finds nothing. *)
Lemma spec_first_chapter_fallback chapters :
  Forall (fun c => eq_str (field "order" c) "1" = false) chapters ->
  spec_first_chapter chapters = find type_item chapters.
Proof.
  intros Hno. unfold spec_first_chapter.
  destruct (find order_1_item chapters) as [c|] eqn:Hfind; [|reflexivity].
  apply find_some in Hfind as [Hin Hc].
  rewrite Forall_forall in Hno. specialize (Hno c Hin).
  unfold order_1_item in Hc. rewrite Hno in Hc. discriminate.
Qed.

Lemma spec_first_chapter_object chapters c :
  Forall is_object chapters -> spec_first_chapter chapters = Some c -> is_object c.
Proof.
  intros Hobj Hc. rewrite Forall_forall in Hobj. apply Hobj.
  unfold spec_first_chapter in Hc.
  destruct (find order_1_item chapters) eqn:H1.
  - injection Hc as <-. apply find_some in H1. tauto.
  - apply find_some in Hc. tauto.
Qed.

Lemma spec_first_chapter_truthy chapters c :
  spec_first_chapter chapters = Some c -> truthy c = true.
Proof.
  unfold spec_first_chapter. intros Hc.
  destruct (find order_1_item chapters) eqn:H1.
  - injection Hc as <-. apply find_some in H1. apply order_1_item_truthy. tauto.
  - apply find_some in Hc as [_ Hc]. unfold type_item, field in Hc.
    destruct c as [| | | | |kv]; try discriminate.
    destruct kv; [discriminate | reflexivity].
Qed.

(** ** Responses *)

Ltac run :=
  unfold bind, try_except, try_except_ValueError, log_msg, br_read,
    get_json_from_response, lift, ret, put; simpl.

Ltac close_log :=
  first [ exists []; rewrite app_nil_r; reflexivity
        | eexists; rewrite <- ?app_assoc; reflexivity ].

Section Eval.
Variable E : Env.

Lemma get_first_chapter_publish_date_eval {Q} id (st : state Q) d chapters :
  answers E (length (requests st)) (CHANGPEI_CHAPTER_LIST id) d ->
  lookup "list" d = Some (JArr chapters) ->
  Forall is_object chapters ->
  exists l,
    get_first_chapter_publish_date E id st =
    (Ok (publish_date_of E (spec_first_chapter chapters)),
     mk_state (queue st) (log st ++ l)
              (requests st ++ [JStr (CHANGPEI_CHAPTER_LIST id)])).
Proof.
  intros (raw & kv & H1 & H2 & H3 & H4) Hl Hobj.
  unfold get_first_chapter_publish_date. run.
  rewrite H1. simpl. rewrite H2.
  unfold list_ok, detail_ok, code_is_200. simpl. rewrite H3. simpl. rewrite H4. simpl.
  rewrite Hl. simpl.
  destruct chapters as [|c0 rest]; simpl; [close_log|].
  rewrite (select_first_chapter_spec _ Hobj).
  destruct (spec_first_chapter (c0 :: rest)) as [c|] eqn:Hsel; simpl;
    [|close_log].
  rewrite (spec_first_chapter_truthy _ _ Hsel).
  destruct (spec_first_chapter_object _ _ Hobj Hsel) as [ckv ->]. simpl.
  destruct (lookup "public_date" ckv) as [pd|]; simpl; [|close_log].
  destruct pd as [|b|n|s|l|okv]; simpl; try close_log.
  - destruct b; simpl; close_log.
  - destruct (Z.eqb n 0); simpl; close_log.
  - destruct (String.eqb s ""); simpl; [close_log|].
    destruct (strptime E s DATE_FORMAT); simpl; close_log.
  - destruct l; simpl; close_log.
  - destruct okv; simpl; close_log.
Qed.

Lemma Forall_False_nil {A} (l : list A) : Forall (fun _ => False) l -> l = [].
Proof. destruct l; [reflexivity | inversion 1; contradiction]. Qed.

(** A guarded block that reads one URL and then issues no further request:
    the call makes exactly that request. *)
Lemma try_read_once {Q A} (P : Q -> Prop) url
      (rest : string -> M Q A) (h : exn -> M Q A) st :
  (forall raw, frame P (fun _ => False) (rest raw)) ->
  (forall e, frame P (fun _ => False) (h e)) ->
  exists new l,
    let st' := snd (try_except (bind (br_read E url) rest) h st) in
    queue st' = queue st ++ new /\ Forall P new /\
    log st' = log st ++ l /\ requests st' = requests st ++ [url].
Proof.
  intros Hrest Hh.
  unfold try_except, bind, br_read.
  set (st1 := mk_state (queue st) (log st) (requests st ++ [url])).
  destruct (open_novisit E (length (requests st)) url) as [raw|].
  - destruct (Hrest raw st1) as (n1 & l1 & r1 & Hq1 & HP1 & Hl1 & Hr1 & HR1).
    apply Forall_False_nil in HR1. subst r1. rewrite app_nil_r in Hr1.
    destruct (rest raw st1) as [[a|e] st2]; simpl in *.
    + exists n1, l1. auto.
    + destruct (Hh e st2) as (n2 & l2 & r2 & Hq2 & HP2 & Hl2 & Hr2 & HR2).
      apply Forall_False_nil in HR2. subst r2. rewrite app_nil_r in Hr2.
      exists (n1 ++ n2), (l1 ++ l2).
      rewrite Hq2, Hq1, Hl2, Hl1, Hr2, Hr1, !app_assoc.
      repeat split. apply Forall_app. split; assumption.
  - destruct (Hh URLError st1) as (n2 & l2 & r2 & Hq2 & HP2 & Hl2 & Hr2 & HR2).
    apply Forall_False_nil in HR2. subst r2. rewrite app_nil_r in Hr2.
    exists n2, l2. simpl. auto.
Qed.

(** Whatever the chapter endpoint answers, the enrichment returns a date or
    [None], puts nothing on the queue and makes its one request. *)
Lemma get_first_chapter_publish_date_shape {Q} id (st : state Q) :
  exists d l,
    get_first_chapter_publish_date E id st =
    (Ok d, mk_state (queue st) (log st ++ l)
                    (requests st ++ [JStr (CHANGPEI_CHAPTER_LIST id)])).
Proof.
  destruct (returns_get_first_chapter_publish_date E id st) as [d Hd].
  unfold get_first_chapter_publish_date in *.
  match goal with
  | |- context [try_except (bind (br_read E ?u) ?rest) ?h] =>
      destruct (try_read_once (fun _ : Q => False) u rest h st)
        as (new & l & Hq & HP & Hl & Hr)
  end.
  - intros raw. repeat frame_step.
  - intros e. repeat frame_step.
  - apply Forall_False_nil in HP. subst new. rewrite app_nil_r in Hq.
    match goal with
    | |- context [try_except ?m ?h st] =>
        destruct (try_except m h st) as [r st']
    end.
    simpl in *. subst r. exists d, l. destruct st'. simpl in *. congruence.
Qed.
End Eval.

(** ** Lookup by id *)

Section Lookup.
Variable E : Env.

Lemma identify_by_id_success cp_id st novel_data :
  answers E (length (requests st)) (CHANGPEI_NOVEL_INFO cp_id) novel_data ->
  exists d l,
    fst (get_first_chapter_publish_date E cp_id (after_detail cp_id st)) = Ok d /\
    identify_by_id E cp_id st =
    (Ok tt,
     mk_state (queue st ++ [detail_record cp_id novel_data d])
              (log st ++ l)
              (requests st ++ [JStr (CHANGPEI_NOVEL_INFO cp_id);
                               JStr (CHANGPEI_CHAPTER_LIST cp_id)])).
Proof.
  intros (raw & kv & H1 & H2 & H3 & H4).
  destruct (get_first_chapter_publish_date_shape E cp_id (after_detail cp_id st))
    as (d & l & Hd).
  exists d. eexists. split; [rewrite Hd; reflexivity|].
  unfold identify_by_id. run.
  rewrite H1. simpl. rewrite H2.
  unfold detail_ok, code_is_200. simpl. rewrite H3. simpl. rewrite H4. simpl.
  fold (get_or "novel_info" (JStr "") novel_data).
  destruct (negb (truthy (get_or "novel_info" (JStr "") novel_data))) eqn:Hdesc;
    simpl; fold (after_detail cp_id st); rewrite Hd; simpl;
    unfold detail_record; rewrite Hdesc;
    rewrite <- !app_assoc; reflexivity.
Qed.
End Lookup.

(** ** Search by title *)

Lemma records_of_app r l1 l2 :
  records_of r (l1 ++ l2) = records_of r l1 ++ records_of r l2.
Proof.
  induction l1 as [|b l1 IH]; [reflexivity|].
  simpl. destruct (record_of r b); simpl; rewrite IH; reflexivity.
Qed.

Lemma record_of_lacks_id r book : lacks_id book -> record_of r book = None.
Proof.
  intros (kv & -> & Hid). unfold record_of, hit_record. rewrite Hid. reflexivity.
Qed.

Lemma hit_record_well_formed r book :
  well_formed_hit book -> exists o, hit_record r book = Ok o.
Proof.
  intros (kv & -> & Hc). unfold hit_record.
  destruct (negb (truthy (get_or "novel_id" (JStr "") kv))); [eexists; reflexivity|].
  unfold get_or at 1.
  destruct Hc as [-> | [u ->]]; rewrite normalize_cover_str; eexists; reflexivity.
Qed.

Section Search.
Variable E : Env.

Lemma search_hit_eval i book st :
  match hit_record (repr_str E) book with
  | Ok None =>
      search_hit E i book st =
      (Ok tt, mk_state (queue st) (log st ++ [(ERROR, CantFindBookId i)]) (requests st))
  | Ok (Some mi) =>
      exists m, search_hit E i book st =
      (Ok tt, mk_state (queue st ++ [mi]) (log st ++ [(INFO, m)]) (requests st))
  | Raise e => search_hit E i book st = (Raise e, st)
  end.
Proof.
  unfold search_hit, hit_record.
  destruct book as [| | | | |kv]; try reflexivity.
  run. fold (get_or "novel_id" (JStr "") kv).
  destruct (negb (truthy (get_or "novel_id" (JStr "") kv))); simpl; [reflexivity|].
  fold (get_or "novel_cover" (JStr CHANGPEI_NO_BOOKCOVER_URL) kv).
  destruct (normalize_cover (get_or "novel_cover" (JStr CHANGPEI_NO_BOOKCOVER_URL) kv));
    simpl; [|reflexivity].
  eexists. reflexivity.
Qed.

(** The loop puts the records of a prefix of the entries: all of them
    unless an entry makes the body raise. *)
Lemma search_loop_eval books :
  forall i st,
  exists k l,
    snd (search_loop E i books st) =
    mk_state (queue st ++ records_of (repr_str E) (firstn k books))
             (log st ++ l) (requests st) /\
    (Forall (fun b => exists o, hit_record (repr_str E) b = Ok o) books ->
     fst (search_loop E i books st) = Ok tt /\ firstn k books = books).
Proof.
  induction books as [|book rest IH]; intros i st.
  - exists 0, []. simpl. rewrite !app_nil_r. destruct st. auto.
  - simpl search_loop. unfold bind.
    pose proof (search_hit_eval i book st) as Hhit.
    destruct (hit_record (repr_str E) book) as [[mi|]|e] eqn:Hrec.
    + destruct Hhit as [m ->].
      destruct (IH (S i) (mk_state (queue st ++ [mi]) (log st ++ [(INFO, m)]) (requests st)))
        as (k & l & Hst & Hall).
      exists (S k), ((INFO, m) :: l). split.
      * rewrite Hst. simpl. unfold record_of. rewrite Hrec.
        rewrite <- !app_assoc. reflexivity.
      * intros HF.
        destruct (Hall (Forall_inv_tail HF)) as [Hok Hk]. split; [exact Hok|].
        simpl. rewrite Hk. reflexivity.
    + rewrite Hhit.
      destruct (IH (S i) (mk_state (queue st) (log st ++ [(ERROR, CantFindBookId i)]) (requests st)))
        as (k & l & Hst & Hall).
      exists (S k), ((ERROR, CantFindBookId i) :: l). split.
      * rewrite Hst. simpl. unfold record_of. rewrite Hrec.
        rewrite <- !app_assoc. reflexivity.
      * intros HF.
        destruct (Hall (Forall_inv_tail HF)) as [Hok Hk]. split; [exact Hok|].
        simpl. rewrite Hk. reflexivity.
    + rewrite Hhit. exists 0, []. split.
      * simpl. rewrite !app_nil_r. destruct st. reflexivity.
      * intros HF. destruct (Forall_inv HF) as [o Ho]. congruence.
Qed.
End Search.

Ltac no_records :=
  exists 0; eexists; rewrite app_nil_r, <- ?app_assoc; reflexivity.

Section SearchCall.
Variable E : Env.

Lemma search_by_title_eval title st :
  exists k l,
    search_by_title E title st =
    (Ok tt,
     mk_state (queue st ++ records_of (repr_str E) (firstn k (upstream_list E title st)))
              (log st ++ l)
              (requests st ++ [JStr (search_url title)])).
Proof.
  unfold search_by_title, upstream_list. fold (normalized title). fold (search_url title).
  run.
  destruct (open_novisit E (length (requests st)) (JStr (search_url title))) as [raw|];
    simpl; [|no_records].
  destruct (json_loads E (strip raw)) as [data|]; simpl; [|no_records].
  destruct (list_ok data) as [[|]|e]; simpl; try no_records.
  destruct (rbind (py_getitem data "data") (fun d => py_getitem d "list"))
    as [books|e]; simpl; [|no_records].
  destruct (rbind (py_getitem data "data") (fun d => py_getitem d "count"))
    as [count|e]; simpl; [|no_records].
  destruct (py_len books) as [n|e]; simpl; [|no_records].
  destruct (format_d count) as [[]|e]; simpl; [|no_records].
  destruct (py_iter books) as [items|e]; simpl; [|no_records].
  match goal with
  | |- context [search_loop E 0 items ?s] =>
      destruct (search_loop_eval E items 0 s) as (k & l & Hst & _);
      destruct (search_loop E 0 items s) as [[[]|e] st']
  end; simpl in Hst; subst st'; simpl;
    exists k; eexists; rewrite <- ?app_assoc; reflexivity.
Qed.

(** A success envelope with a numeric [count] and well-formed entries puts
    the records of all the entries. *)
Lemma search_by_title_complete title st d books count :
  answers E (length (requests st)) (search_url title) d ->
  lookup "list" d = Some (JArr books) ->
  lookup "count" d = Some (JNum count) ->
  Forall well_formed_hit books ->
  upstream_list E title st = books /\
  queue (snd (search_by_title E title st)) =
    queue st ++ records_of (repr_str E) books.
Proof.
  intros (raw & kv & H1 & H2 & H3 & H4) Hl Hc Hwf.
  unfold search_by_title, upstream_list. fold (normalized title). fold (search_url title).
  run. rewrite H1. simpl. rewrite H2.
  unfold list_ok, detail_ok, code_is_200. simpl. rewrite H3. simpl. rewrite H4. simpl.
  rewrite Hl. simpl. rewrite Hc. simpl. split; [reflexivity|].
  match goal with
  | |- context [search_loop E 0 books ?s] =>
      destruct (search_loop_eval E books 0 s) as (k & l & Hst & Hall);
      destruct Hall as [Hok Hk];
      [ eapply Forall_impl; [|exact Hwf]; intros b Hb;
        apply hit_record_well_formed; exact Hb |];
      destruct (search_loop E 0 books s) as [r st']
  end.
  simpl in *. subst r st'. simpl. rewrite Hk. reflexivity.
Qed.
End SearchCall.

(** ** Failed fetches *)

Lemma detail_ok_failure kv :
  lookup "code" kv <> Some (JNum 200) \/ lookup "data" kv = None ->
  detail_ok (JObj kv) = Ok false.
Proof.
  intros H. unfold detail_ok, code_is_200, py_contains, py_getitem, rbind, and_then, eq_int.
  destruct (lookup "code" kv) as [c|]; [|reflexivity].
  destruct c as [| |n| | |]; try reflexivity.
  destruct (Z.eqb_spec n 200) as [->|Hn]; [|reflexivity].
  destruct H as [H|H]; [congruence|]. rewrite H. reflexivity.
Qed.

Lemma list_ok_failure kv :
  lookup "code" kv <> Some (JNum 200) \/ lookup "data" kv = None ->
  list_ok (JObj kv) = Ok false.
Proof.
  intros H. unfold list_ok. rewrite (detail_ok_failure kv H). reflexivity.
Qed.


Section Failures.
Variable E : Env.

Lemma identify_no_id title identifiers :
  no_id identifiers -> identify E title identifiers = search_by_title E title.
Proof. unfold identify. intros [-> | ->]; reflexivity. Qed.

Lemma identify_with_id title identifiers cp_id :
  lookup PROVIDER_ID identifiers = Some cp_id -> cp_id <> EmptyString ->
  identify E title identifiers = identify_by_id E cp_id.
Proof.
  unfold identify. intros -> Hne.
  destruct (String.eqb_spec cp_id ""); [contradiction | reflexivity].
Qed.




End Failures.

Ltac answered := do 2 eexists; repeat split; reflexivity.

(** * The claims *)

(** C8.  The cover-URL normalisation of Search-by-Title is idempotent: for
    every URL string, stripping the thumbnail suffix from an already
    stripped URL yields the same URL.  The same holds of the two source
    lines on any decoded value: a second pass returns (or raises) what the
    first did. *)
Theorem strip_small_style_idempotent :
  (forall u : string,
     strip_small_style (strip_small_style u) = strip_small_style u) /\
  (forall u : string,
     rbind (normalize_cover (JStr u)) normalize_cover = normalize_cover (JStr u)) /\
  (forall bCover : json,
     rbind (normalize_cover bCover) normalize_cover = normalize_cover bCover).
Proof.
  assert (Hs : forall u, strip_small_style (strip_small_style u) = strip_small_style u).
  { intros u. unfold strip_small_style at 1.
    rewrite strip_small_style_clean. reflexivity. }
  assert (Hj : forall bCover,
             rbind (normalize_cover bCover) normalize_cover = normalize_cover bCover).
  { intros bCover. destruct bCover as [|b|n|u|l|kv]; try reflexivity.
    - rewrite normalize_cover_str. simpl. rewrite normalize_cover_str, Hs. reflexivity.
    - unfold normalize_cover at 1 3, py_contains, rbind at 2 3.
      destruct (existsb (fun x => eq_str x SMALL_STYLE) l) eqn:Hin; [reflexivity|].
      unfold rbind, normalize_cover, py_contains. rewrite Hin. reflexivity.
    - unfold normalize_cover at 1 3, py_contains, rbind at 2 3.
      destruct (lookup SMALL_STYLE kv) eqn:Hin; [reflexivity|].
      unfold rbind, normalize_cover, py_contains. rewrite Hin. reflexivity. }
  repeat split; auto.
Qed.

(** C2.  A Lookup-by-ID call (identify with a non-empty catalog identifier)
    whose detail response has code 200 and a data payload appends exactly
    one record to the result sink, and that record's external id equals the
    input id; the call returns normally. *)
Theorem identify_by_id_appends_one_record
    (E : Env) title identifiers cp_id novel_data (st : state Metadata) :
  lookup PROVIDER_ID identifiers = Some cp_id ->
  cp_id <> EmptyString ->
  answers E (length (requests st)) (CHANGPEI_NOVEL_INFO cp_id) novel_data ->
  exists mi,
    queue (snd (identify E title identifiers st)) = queue st ++ [mi] /\
    external_id mi = Some cp_id /\
    fst (identify E title identifiers st) = Ok tt.
Proof.
  intros Hid Hne Hdetail.
  rewrite (identify_with_id E title identifiers cp_id Hid Hne).
  destruct (identify_by_id_success E cp_id st novel_data Hdetail) as (d & l & _ & ->).
  exists (detail_record cp_id novel_data d). simpl. auto.
Qed.

Lemma identify_by_id_appends_one_record_witness :
  exists mi,
    queue (snd (identify good_world None [(PROVIDER_ID, "42")] start)) =
      queue (@start Metadata) ++ [mi] /\
    external_id mi = Some "42"%string /\
    fst (identify good_world None [(PROVIDER_ID, "42")] start) = Ok tt.
Proof.
  apply (identify_by_id_appends_one_record
           good_world None [(PROVIDER_ID, "42"%string)] "42" detail_payload start).
  - reflexivity.
  - discriminate.
  - answered.
Defined.

Lemma publish_date_of_unusable E chapters :
  (forall c, spec_first_chapter chapters = Some c -> no_usable_date E c) ->
  publish_date_of E (spec_first_chapter chapters) = None.
Proof.
  intros H. destruct (spec_first_chapter chapters) as [c|]; [|reflexivity].
  specialize (H c eq_refl). unfold publish_date_of, no_usable_date in *.
  destruct (field "public_date" c) as [| | |s| |]; try reflexivity.
  destruct (H s eq_refl) as [-> | ->]; [reflexivity|].
  destruct (String.eqb s ""); reflexivity.
Qed.

(** C5.  In a Lookup-by-ID call, a failure to parse the first chapter's
    publish timestamp, or its absence, only leaves the publish date unset:
    the record is still built and appended, with [pubdate] unset, and the
    call returns normally. *)
Theorem identify_by_id_date_failure_keeps_record
    (E : Env) title identifiers cp_id novel_data chapter_data chapters
    (st : state Metadata) :
  lookup PROVIDER_ID identifiers = Some cp_id ->
  cp_id <> EmptyString ->
  answers E (length (requests st)) (CHANGPEI_NOVEL_INFO cp_id) novel_data ->
  answers E (S (length (requests st))) (CHANGPEI_CHAPTER_LIST cp_id) chapter_data ->
  lookup "list" chapter_data = Some (JArr chapters) ->
  Forall is_object chapters ->
  (forall c, spec_first_chapter chapters = Some c -> no_usable_date E c) ->
  fst (identify E title identifiers st) = Ok tt /\
  queue (snd (identify E title identifiers st)) =
    queue st ++ [detail_record cp_id novel_data None] /\
  mi_pubdate (detail_record cp_id novel_data None) = None.
Proof.
  intros Hid Hne Hdetail Hchap Hlist Hobj Hdate.
  rewrite (identify_with_id E title identifiers cp_id Hid Hne).
  destruct (identify_by_id_success E cp_id st novel_data Hdetail) as (d & l & Hd & ->).
  destruct (get_first_chapter_publish_date_eval E cp_id (after_detail cp_id st)
              chapter_data chapters) as [l' Heval]; try assumption.
  { simpl. rewrite length_app. simpl. rewrite Nat.add_1_r. exact Hchap. }
  rewrite Heval in Hd. simpl in Hd.
  rewrite (publish_date_of_unusable E chapters Hdate) in Hd.
  injection Hd as <-. simpl. auto.
Qed.

Lemma identify_by_id_date_failure_keeps_record_witness :
  fst (identify bad_date_world None [(PROVIDER_ID, "42")] start) = Ok tt /\
  queue (snd (identify bad_date_world None [(PROVIDER_ID, "42")] start)) =
    queue (@start Metadata) ++ [detail_record "42" detail_payload None] /\
  mi_pubdate (detail_record "42" detail_payload None) = None.
Proof.
  apply (identify_by_id_date_failure_keeps_record
           bad_date_world None [(PROVIDER_ID, "42"%string)] "42" detail_payload
           [("list", JArr [JObj [("type", JStr "item"); ("order", JStr "1");
                                 ("public_date", JStr "soon")]])]
           [JObj [("type", JStr "item"); ("order", JStr "1");
                  ("public_date", JStr "soon")]]
           start).
  - reflexivity.
  - discriminate.
  - answered.
  - answered.
  - reflexivity.
  - repeat constructor. eexists. reflexivity.
  - intros c Hc s Hs. injection Hc as <-. injection Hs as <-.
    right. reflexivity.
Defined.

(** C7.  Publish-date enrichment selects, from the returned chapter list,
    the first entry whose order equals "1" and whose type equals "item"; if
    no entry matches, it falls back to the first entry of type "item" in
    list order.  In particular, when no entry has order "1", the first
    "item" entry is the one used.  The selected entry's [public_date] is
    parsed with the pattern [%Y-%m-%d %H:%M:%S]. *)
Theorem first_chapter_selection
    (E : Env) (Q : Type) novel_id chapter_data chapters (st : state Q) :
  answers E (length (requests st)) (CHANGPEI_CHAPTER_LIST novel_id) chapter_data ->
  lookup "list" chapter_data = Some (JArr chapters) ->
  Forall is_object chapters ->
  select_first_chapter (JArr chapters) =
    Ok (or_null (match find order_1_item chapters with
                 | Some c => Some c
                 | None => find type_item chapters
                 end)) /\
  (Forall (fun c => eq_str (field "order" c) "1" = false) chapters ->
   select_first_chapter (JArr chapters) = Ok (or_null (find type_item chapters))) /\
  fst (get_first_chapter_publish_date E novel_id st) =
    Ok (match spec_first_chapter chapters with
        | Some c =>
            match field "public_date" c with
            | JStr s => if String.eqb s "" then None
                        else strptime E s "%Y-%m-%d %H:%M:%S"
            | _ => None
            end
        | None => None
        end).
Proof.
  intros Hchap Hlist Hobj. repeat split.
  - apply (select_first_chapter_spec chapters Hobj).
  - intros Hno. rewrite (select_first_chapter_spec chapters Hobj).
    rewrite (spec_first_chapter_fallback chapters Hno). reflexivity.
  - destruct (get_first_chapter_publish_date_eval E novel_id st chapter_data chapters
                Hchap Hlist Hobj) as [l ->].
    reflexivity.
Qed.

Lemma first_chapter_selection_witness :
  select_first_chapter (JArr demo_chapters) =
    Ok (JObj [("type", JStr "item"); ("order", JStr "2");
              ("public_date", JStr "2020-01-02 03:04:05")]) /\
  fst (get_first_chapter_publish_date good_world "42" (@start Metadata)) =
    Ok (Some (mk_datetime 2020 1 2 3 4 5)).
Proof.
  destruct (first_chapter_selection good_world Metadata "42"
              [("list", JArr demo_chapters)] demo_chapters start)
    as (_ & Hfallback & Hdate).
  - answered.
  - reflexivity.
  - repeat constructor; eexists; reflexivity.
  - split.
    + apply Hfallback. repeat constructor.
    + exact Hdate.
Defined.

(** C6.  Every record any operation places in the result sink has a
    non-empty external id: what [identify] appends are records with one;
    the Lookup-by-ID path runs only for a non-empty input id, which it
    copies into the record; the Search-by-Title path skips an entry whose
    id is empty or missing, logging the skip and putting nothing. *)
Theorem sink_records_have_external_id (E : Env) :
  (forall title identifiers (st : state Metadata),
     exists new,
       queue (snd (identify E title identifiers st)) = queue st ++ new /\
       Forall has_external_id new) /\
  (forall title identifiers,
     no_id identifiers -> identify E title identifiers = search_by_title E title) /\
  (forall cp_id novel_data d,
     external_id (detail_record cp_id novel_data d) = Some cp_id) /\
  (forall i book (st : state Metadata),
     lacks_id book ->
     search_hit E i book st =
     (Ok tt, mk_state (queue st) (log st ++ [(ERROR, CantFindBookId i)]) (requests st))).
Proof.
  repeat split.
  - intros title identifiers st.
    destruct (frame_identify E title identifiers st) as (new & _ & _ & Hq & HP & _).
    exists new. auto.
  - apply identify_no_id.
  - intros i book st Hlack.
    pose proof (search_hit_eval E i book st) as Hhit.
    destruct Hlack as (kv & -> & Hid). unfold hit_record in Hhit.
    rewrite Hid in Hhit. exact Hhit.
Qed.

Lemma sink_records_have_external_id_witness :
  identify good_world (Some "a"%string) [(PROVIDER_ID, ""%string)] start =
    search_by_title good_world (Some "a"%string) start /\
  search_hit good_world 1 (JObj [("novel_name", JStr "nameless")]) start =
    (Ok tt, mk_state [] [(ERROR, CantFindBookId 1)] []).
Proof.
  destruct (sink_records_have_external_id good_world) as (_ & Hsearch & _ & Hskip).
  split.
  - rewrite (Hsearch (Some "a"%string) [(PROVIDER_ID, ""%string)]); [reflexivity|].
    right. reflexivity.
  - apply (Hskip 1 (JObj [("novel_name", JStr "nameless")]) start).
    eexists. split; reflexivity.
Defined.

(** C3.  For every Search-by-Title call, the records appended to the sink
    are the records of the entries of the upstream list, in list order: of
    all the entries when the response is a success envelope with well-formed
    entries, of a leading part of them in any case.  An entry with an empty
    or missing id yields no record, and leaving it out does not disturb the
    order of the records of the entries around it. *)
Theorem search_by_title_preserves_order (E : Env) title identifiers
    (st : state Metadata) :
  no_id identifiers ->
  (exists k,
     queue (snd (identify E title identifiers st)) =
     queue st ++ records_of (repr_str E) (firstn k (upstream_list E title st))) /\
  (forall d books count,
     answers E (length (requests st)) (search_url title) d ->
     lookup "list" d = Some (JArr books) ->
     lookup "count" d = Some (JNum count) ->
     Forall well_formed_hit books ->
     upstream_list E title st = books /\
     queue (snd (identify E title identifiers st)) =
       queue st ++ records_of (repr_str E) books) /\
  (forall book, lacks_id book -> record_of (repr_str E) book = None) /\
  (forall before book after,
     lacks_id book ->
     records_of (repr_str E) (before ++ book :: after) =
     records_of (repr_str E) before ++ records_of (repr_str E) after).
Proof.
  intros Hno. rewrite (identify_no_id E title identifiers Hno). repeat split.
  - destruct (search_by_title_eval E title st) as (k & l & ->). exists k. reflexivity.
  - eapply search_by_title_complete; eassumption.
  - eapply search_by_title_complete; eassumption.
  - apply record_of_lacks_id.
  - intros before book after Hlack. rewrite records_of_app. simpl.
    rewrite (record_of_lacks_id _ book Hlack). reflexivity.
Qed.

Lemma search_by_title_preserves_order_witness :
  map external_id (queue (snd (identify good_world (Some "a"%string) [] start))) =
  [Some "12"%string; Some "7"%string].
Proof.
  destruct (search_by_title_preserves_order good_world (Some "a"%string) []
              (@start Metadata)) as (_ & Hall & _).
  - left. reflexivity.
  - destruct (Hall [("count", JNum 3); ("list", JArr demo_hits)] demo_hits 3%Z)
      as [_ ->].
    + answered.
    + reflexivity.
    + reflexivity.
    + repeat constructor; eexists; split; try reflexivity;
        first [left; reflexivity | right; eexists; reflexivity].
    + reflexivity.
Defined.

(** C10.  Search-by-Title reads [count] from the data object before it
    iterates the list: when the response has code 200 and a non-empty list
    but no [count] key, the key lookup error is caught and logged and the
    call appends nothing. *)
Theorem search_without_count_appends_nothing (E : Env) title identifiers d book rest
    (st : state Metadata) :
  no_id identifiers ->
  answers E (length (requests st)) (search_url title) d ->
  lookup "list" d = Some (JArr (book :: rest)) ->
  lookup "count" d = None ->
  identify E title identifiers st =
  (Ok tt,
   mk_state (queue st)
            (log st ++ [(INFO, SearchWithTitle (normalized title) (search_url title));
                        (EXCEPTION, ErrorUsingSearchApi (KeyError "count"))])
            (requests st ++ [JStr (search_url title)])).
Proof.
  intros Hno (raw & kv & H1 & H2 & H3 & H4) Hl Hc.
  rewrite (identify_no_id E title identifiers Hno).
  unfold search_by_title. fold (normalized title). fold (search_url title).
  run. rewrite H1. simpl. rewrite H2.
  unfold list_ok, detail_ok, code_is_200. simpl. rewrite H3. simpl. rewrite H4. simpl.
  rewrite Hl. simpl. rewrite Hc. simpl. rewrite <- app_assoc. reflexivity.
Qed.

Lemma search_without_count_appends_nothing_witness :
  identify no_count_world (Some "a"%string) [] (@start Metadata) =
  (Ok tt,
   mk_state []
            [(INFO, SearchWithTitle "a" (search_url (Some "a"%string)));
             (EXCEPTION, ErrorUsingSearchApi (KeyError "count"))]
            [JStr (search_url (Some "a"%string))]).
Proof.
  apply (search_without_count_appends_nothing no_count_world (Some "a"%string) []
           [("list", JArr [JObj [("novel_id", JNum 12)]])]
           (JObj [("novel_id", JNum 12)]) [] start).
  - left. reflexivity.
  - answered.
  - reflexivity.
  - reflexivity.
Defined.

Section CoverCalls.
Variable E : Env.

(** Without an id, [download_cover] first runs the nested [identify]; with
    the flag set or an empty private queue it stops there. *)
Lemma download_cover_stops abort title identifiers st :
  lookup PROVIDER_ID identifiers = None ->
  abort = true \/ queue (snd (nested_identify E title identifiers st)) = [] ->
  download_cover E abort title identifiers st =
  (Ok tt,
   mk_state (queue st)
            (log (snd (nested_identify E title identifiers st)) ++
             (if abort then [] else [(ERROR, NoResultAfterIdentify)]))
            (requests (snd (nested_identify E title identifiers st)))).
Proof.
  intros Hid Hstop. unfold download_cover. rewrite Hid.
  unfold bind at 1. unfold log_msg at 1. unfold bind at 1. unfold with_new_queue.
  cbn [queue log requests].
  fold (nested_identify E title identifiers st).
  destruct (returns_identify E title identifiers
              (mk_state [] (log st ++ [(INFO, NoIdRunningIdentify)]) (requests st)))
    as [[] Hok].
  fold (nested_identify E title identifiers st) in Hok.
  destruct (nested_identify E title identifiers st) as [r st'].
  simpl in Hok, Hstop. subst r.
  destruct abort.
  - unfold ret. rewrite app_nil_r. reflexivity.
  - destruct Hstop as [Habs | Hq]; [discriminate|]. rewrite Hq. reflexivity.
Qed.
End CoverCalls.

(** C9.  A Cover-Fetch call with no identifier whose internal search yields
    an empty result set appends nothing to the result sink and returns
    normally; it logs the failure and issues no request of its own.  The
    search yields a result set, empty or not, when it is made at all: for a
    title that can be encoded. *)
Theorem download_cover_empty_search (E : Env) abort title identifiers
    (st : state string) :
  lookup PROVIDER_ID identifiers = None ->
  encodable (normalized title) = true ->
  queue (snd (nested_identify E title identifiers st)) = [] ->
  fst (download_cover E abort title identifiers st) = Ok tt /\
  queue (snd (download_cover E abort title identifiers st)) = queue st /\
  requests (snd (download_cover E abort title identifiers st)) =
    requests (snd (nested_identify E title identifiers st)) /\
  (abort = false ->
   log (snd (download_cover E abort title identifiers st)) =
     log (snd (nested_identify E title identifiers st)) ++
     [(ERROR, NoResultAfterIdentify)]).
Proof.
  intros Hid _ Hempty.
  rewrite (download_cover_stops E abort title identifiers st Hid (or_intror Hempty)).
  simpl. repeat split. intros ->. reflexivity.
Qed.

Lemma download_cover_empty_search_witness :
  fst (download_cover unreachable_world false (Some "a"%string) [] start) = Ok tt /\
  queue (snd (download_cover unreachable_world false (Some "a"%string) [] start)) = [] /\
  requests (snd (download_cover unreachable_world false (Some "a"%string) [] start)) =
    [JStr (search_url (Some "a"%string))].
Proof.
  destruct (download_cover_empty_search unreachable_world false (Some "a"%string) []
              (@start string)) as (Hok & Hq & Hr & _).
  - reflexivity.
  - reflexivity.
  - reflexivity.
  - rewrite Hok, Hq, Hr. repeat split.
Defined.

(** C1, as stated, fails: with the flag set and no identifier, the search
    request of the nested identify is still issued. *)
Lemma download_cover_abort_set_still_searches :
  ~ (requests (snd (download_cover good_world true (Some "a"%string) [] start)) =
       requests (@start string) /\
     queue (snd (download_cover good_world true (Some "a"%string) [] start)) =
       queue (@start string)).
Proof. intros [Hreq _]. vm_compute in Hreq. discriminate Hreq. Qed.

(** C1, amended.  In Cover-Fetch with no identifier the cancellation flag is
    read once, right after the nested identify sub-step has returned: when
    the flag is set, the identify search has been issued, no detail or image
    request follows, zero sink entries are produced and the call returns
    normally.  This is for a title that can be encoded, the search being
    made for such titles only. *)
Theorem download_cover_abort_checked_after_identify (E : Env) title identifiers
    (st : state string) :
  lookup PROVIDER_ID identifiers = None ->
  encodable (normalized title) = true ->
  fst (download_cover E true title identifiers st) = Ok tt /\
  queue (snd (download_cover E true title identifiers st)) = queue st /\
  requests (snd (download_cover E true title identifiers st)) =
    requests st ++ [JStr (search_url title)] /\
  log (snd (download_cover E true title identifiers st)) =
    log (snd (nested_identify E title identifiers st)).
Proof.
  intros Hid _.
  rewrite (download_cover_stops E true title identifiers st Hid (or_introl eq_refl)).
  simpl. rewrite app_nil_r. repeat split.
  unfold nested_identify.
  rewrite (identify_no_id E title identifiers (or_introl Hid)).
  match goal with
  | |- context [search_by_title E title ?s] =>
      destruct (search_by_title_eval E title s) as (k & l & ->)
  end.
  reflexivity.
Qed.

Lemma download_cover_abort_checked_after_identify_witness :
  queue (snd (download_cover good_world true (Some "a"%string) [] start)) = [] /\
  requests (snd (download_cover good_world true (Some "a"%string) [] start)) =
    [JStr (search_url (Some "a"%string))].
Proof.
  destruct (download_cover_abort_checked_after_identify good_world (Some "a"%string) []
              (@start string)) as (_ & Hq & Hr & _).
  - reflexivity.
  - reflexivity.
  - rewrite Hq, Hr. split; reflexivity.
Defined.

Section Swallowed.
Variable E : Env.

(** Once the detail fetch has succeeded the record is put, with whatever
    date the enrichment returned. *)
Lemma identify_by_id_step cp_id st novel_data d st2 :
  answers E (length (requests st)) (CHANGPEI_NOVEL_INFO cp_id) novel_data ->
  get_first_chapter_publish_date E cp_id (after_detail cp_id st) = (Ok d, st2) ->
  identify_by_id E cp_id st =
  (Ok tt, mk_state (queue st2 ++ [detail_record cp_id novel_data d])
                   (log st2) (requests st2)).
Proof.
  intros (raw & kv & H1 & H2 & H3 & H4) Hd.
  unfold identify_by_id. run.
  rewrite H1. simpl. rewrite H2.
  unfold detail_ok, code_is_200. simpl. rewrite H3. simpl. rewrite H4. simpl.
  fold (get_or "novel_info" (JStr "") novel_data).
  destruct (negb (truthy (get_or "novel_info" (JStr "") novel_data))) eqn:Hdesc;
    simpl; fold (after_detail cp_id st); rewrite Hd; simpl;
    unfold detail_record; rewrite Hdesc; reflexivity.
Qed.

End Swallowed.




(** * Further properties *)

(** ** Identifiers and URLs *)

Lemma greedy_stops a k s :
  match s with
  | EmptyString => True
  | String c _ => match_atom a c = false
  end ->
  greedy a k s = None.
Proof. destruct s as [|c s]; cbn [greedy]; [reflexivity | intros ->; reflexivity]. Qed.

(** On a run of digits followed by text that does not start with a digit and
    that the continuation accepts, the group takes the whole run. *)
Lemma greedy_digits k id tail r :
  numeric_id id ->
  match tail with
  | EmptyString => True
  | String c _ => match_atom Digit c = false
  end ->
  (exists g, k tail = Some (g, r)) ->
  greedy Digit k (id ++ tail)%string = Some (id, r).
Proof.
  intros [Hne Hd] Htail [g Hk]. induction id as [|c id IH]; [contradiction|].
  simpl in Hd. apply andb_true_iff in Hd as [Hc Hd]. unfold is_digit in Hc.
  cbn [greedy append]. rewrite Hc.
  destruct id as [|c' id'].
  - cbn [append]. rewrite (greedy_stops Digit k tail Htail), Hk. reflexivity.
  - rewrite IH; [reflexivity | discriminate | exact Hd].
Qed.

Lemma findall_from_skipped pattern s :
  forall n, String.length s <= n -> findall_from pattern n s = [].
Proof.
  induction s as [|c s IH]; intros n Hn; [reflexivity|].
  simpl in *. destruct n as [|n]; [lia|]. apply IH. lia.
Qed.

Lemma findall_from_no_match pattern c s :
  match_items pattern (String c s) = None ->
  findall_from pattern 0 (String c s) = findall_from pattern 0 s.
Proof. intros H. cbn [findall_from]. rewrite H. reflexivity. Qed.

Lemma findall_from_match pattern c s g r :
  match_items pattern (String c s) = Some (g, r) ->
  findall_from pattern 0 (String c s) =
  g :: findall_from pattern (String.length s - String.length r) s.
Proof. intros H. cbn [findall_from]. rewrite H. reflexivity. Qed.

(** The pattern matches where the host name begins, up to the end of
    [.html], and captures the digits. *)
Lemma match_book_url_tail id rest :
  numeric_id id ->
  match_items CHANGPEI_BOOK_URL_PATTERN
              (".gongzicp.com/novel-" ++ id ++ ".html" ++ rest)%string =
  Some (id, rest).
Proof.
  intros Hid.
  change (match_items CHANGPEI_BOOK_URL_PATTERN
            (".gongzicp.com/novel-" ++ id ++ ".html" ++ rest)%string)
    with (greedy Digit (match_items (One AnyChar :: lits "html"))
                 (id ++ ".html" ++ rest)%string).
  apply greedy_digits; [exact Hid | reflexivity | eexists; reflexivity].
Qed.

Lemma id_from_book_url id :
  numeric_id id -> id_from_url (CHANGPEI_BOOK_URL id) = Some id.
Proof.
  intros Hid. unfold id_from_url, findall, CHANGPEI_BOOK_URL.
  cbn [append].
  do 11 (rewrite findall_from_no_match by reflexivity).
  rewrite (findall_from_match _ _ _ id EmptyString)
    by (apply (match_book_url_tail id EmptyString Hid)).
  rewrite findall_from_skipped; [reflexivity|]. simpl. lia.
Qed.

Lemma append_assoc (a b c : string) : ((a ++ b) ++ c = a ++ (b ++ c))%string.
Proof. induction a as [|x a IH]; simpl; [reflexivity | rewrite IH; reflexivity]. Qed.

Lemma length_append (a b : string) :
  String.length (a ++ b) = String.length a + String.length b.
Proof. induction a as [|x a IH]; simpl; [reflexivity | rewrite IH; reflexivity]. Qed.

Lemma findall_from_skip pattern pre s :
  findall_from pattern (String.length pre) (pre ++ s)%string = findall_from pattern 0 s.
Proof.
  induction pre as [|c pre IH]; simpl.
  - destruct s; reflexivity.
  - exact IH.
Qed.

(** In a book URL followed by any text, the one match before that text is
    the id. *)
Lemma findall_book_url_then id rest :
  numeric_id id ->
  findall CHANGPEI_BOOK_URL_PATTERN (CHANGPEI_BOOK_URL id ++ rest)%string =
  id :: findall CHANGPEI_BOOK_URL_PATTERN rest.
Proof.
  intros Hid. unfold findall, CHANGPEI_BOOK_URL.
  rewrite !append_assoc. cbn [append].
  do 11 (rewrite findall_from_no_match by reflexivity).
  pose proof (match_book_url_tail id rest Hid) as Hm. cbn [append] in Hm.
  rewrite (findall_from_match _ _ _ _ _ Hm).
  f_equal.
  match goal with
  | |- findall_from _ _ ?S = _ =>
      assert (HS : S = (("gongzicp.com/novel-" ++ id ++ ".html") ++ rest)%string)
        by (rewrite !append_assoc; reflexivity)
  end.
  rewrite HS, length_append.
  replace (String.length ("gongzicp.com/novel-" ++ id ++ ".html") + String.length rest
           - String.length rest)
    with (String.length ("gongzicp.com/novel-" ++ id ++ ".html")) by lia.
  apply findall_from_skip.
Qed.

(** What the group of [greedy] captures is a non-empty run of the atom. *)
Lemma greedy_captures_digits k s :
  forall g r, greedy Digit k s = Some (g, r) -> numeric_id g.
Proof.
  induction s as [|c s IH]; intros g r H; [discriminate|].
  cbn [greedy] in H. destruct (match_atom Digit c) eqn:Hc; [|discriminate].
  destruct (greedy Digit k s) as [[g' r']|] eqn:Hg.
  - injection H as <- <-. destruct (IH g' r' eq_refl) as [_ Hd].
    split; [discriminate|]. simpl. unfold is_digit. rewrite Hc. exact Hd.
  - destruct (k s) as [[g0 r0]|]; [|discriminate].
    injection H as <- <-. split; [discriminate|].
    simpl. unfold is_digit. rewrite Hc. reflexivity.
Qed.

Lemma match_items_captures_digits pre rest :
  forall s g r,
    match_items (map One pre ++ Group Digit :: rest) s = Some (g, r) -> numeric_id g.
Proof.
  induction pre as [|a pre IH]; intros s g r H.
  - simpl in H. eapply greedy_captures_digits. exact H.
  - cbn [map app match_items] in H.
    destruct s as [|c s]; [discriminate|].
    destruct (match_atom a c); [|discriminate]. eapply IH. exact H.
Qed.

Lemma book_url_pattern_captures_digits s g r :
  match_items CHANGPEI_BOOK_URL_PATTERN s = Some (g, r) -> numeric_id g.
Proof.
  apply (match_items_captures_digits
           (AnyChar :: map Lit (list_ascii_of_string "gongzicp.com/novel-"))
           (One AnyChar :: lits "html")).
Qed.

Lemma findall_from_Forall (P : string -> Prop) pattern :
  (forall s g r, match_items pattern s = Some (g, r) -> P g) ->
  forall s n, Forall P (findall_from pattern n s).
Proof.
  intros HP. induction s as [|c s IH]; intros n; [constructor|].
  cbn [findall_from]. destruct n as [|n]; [|apply IH].
  destruct (match_items pattern (String c s)) as [[g r]|] eqn:Hm; [|apply IH].
  constructor; [eapply HP; exact Hm | apply IH].
Qed.

(** X1.  The id a book URL is built from is the id [id_from_url] reads back
    from it: for numeric ids, [get_book_url] followed by [id_from_url] gives
    the identifier the caller started with. *)
Theorem id_from_url_of_book_url identifiers cp_id :
  lookup PROVIDER_ID identifiers = Some cp_id ->
  numeric_id cp_id ->
  get_book_url identifiers = Some (PROVIDER_ID, cp_id, CHANGPEI_BOOK_URL cp_id) /\
  id_from_url (CHANGPEI_BOOK_URL cp_id) = Some cp_id.
Proof.
  intros Hid Hnum. split.
  - unfold get_book_url. rewrite Hid.
    destruct Hnum as [Hne _].
    destruct (String.eqb_spec cp_id ""); [contradiction | reflexivity].
  - apply id_from_book_url. exact Hnum.
Qed.

Lemma id_from_url_of_book_url_witness :
  get_book_url [(PROVIDER_ID, "1312354"%string)] =
    Some (PROVIDER_ID, "1312354"%string, CHANGPEI_BOOK_URL "1312354") /\
  id_from_url (CHANGPEI_BOOK_URL "1312354") = Some "1312354"%string.
Proof.
  apply (id_from_url_of_book_url [(PROVIDER_ID, "1312354"%string)] "1312354").
  - reflexivity.
  - split; [discriminate | reflexivity].
Defined.

(** X2.  On ASCII text, whatever [id_from_url] returns is a non-empty run of
    digits: it never hands back an empty or non-numeric identifier. *)
Theorem id_from_url_is_numeric url id :
  is_ascii url = true ->
  id_from_url url = Some id ->
  numeric_id id.
Proof.
  intros _ H. unfold id_from_url in H.
  pose proof (findall_from_Forall numeric_id CHANGPEI_BOOK_URL_PATTERN
                book_url_pattern_captures_digits url 0) as HF.
  fold (findall CHANGPEI_BOOK_URL_PATTERN url) in HF.
  destruct (findall CHANGPEI_BOOK_URL_PATTERN url) as [|res [|res' l]];
    try discriminate.
  injection H as <-. exact (Forall_inv HF).
Qed.

Lemma id_from_url_is_numeric_witness : numeric_id "131235".
Proof.
  apply (id_from_url_is_numeric "https://www.gongzicp.com/novel-1312354html" "131235");
    reflexivity.
Defined.

(** X3.  A text that holds two book links yields no id: [id_from_url]
    answers only when the pattern occurs exactly once. *)
Theorem id_from_url_two_links a b :
  numeric_id a -> numeric_id b ->
  findall CHANGPEI_BOOK_URL_PATTERN (CHANGPEI_BOOK_URL a ++ CHANGPEI_BOOK_URL b)%string
    = [a; b] /\
  id_from_url (CHANGPEI_BOOK_URL a ++ CHANGPEI_BOOK_URL b)%string = None.
Proof.
  intros Ha Hb.
  assert (Hall : findall CHANGPEI_BOOK_URL_PATTERN
                   (CHANGPEI_BOOK_URL a ++ CHANGPEI_BOOK_URL b)%string = [a; b]).
  { rewrite (findall_book_url_then a _ Ha).
    replace (CHANGPEI_BOOK_URL b) with (CHANGPEI_BOOK_URL b ++ "")%string
      by (induction (CHANGPEI_BOOK_URL b) as [|c s IH]; simpl; congruence).
    rewrite (findall_book_url_then b _ Hb). reflexivity. }
  split; [exact Hall|]. unfold id_from_url. rewrite Hall. reflexivity.
Qed.

Lemma id_from_url_two_links_witness :
  id_from_url (CHANGPEI_BOOK_URL "12" ++ CHANGPEI_BOOK_URL "7")%string = None.
Proof.
  apply (id_from_url_two_links "12" "7"); split; (discriminate || reflexivity).
Defined.

(** ** Records *)

Section Records.
Variable E : Env.

Lemma frame_canonical_identify_by_id cp_id :
  cp_id <> EmptyString ->
  frame canonical_record (fun _ => True) (identify_by_id E cp_id).
Proof.
  intros Hid. unfold identify_by_id.
  repeat first [ apply frame_get_first_chapter_publish_date | frame_step ];
    try exact I.
  exists cp_id. repeat split. exact Hid.
Qed.

Lemma frame_canonical_search_hit i book :
  frame (fun mi => canonical_record mi /\ mi_pubdate mi = None) (fun _ => True)
        (search_hit E i book).
Proof.
  unfold search_hit. repeat frame_step.
  split; [|reflexivity].
  eexists. repeat split.
  apply py_str_truthy. apply negb_false_iff. assumption.
Qed.

Lemma frame_canonical_search_loop books :
  forall i,
    frame (fun mi => canonical_record mi /\ mi_pubdate mi = None) (fun _ => True)
          (search_loop E i books).
Proof.
  induction books as [|book rest IH]; intros i; simpl.
  - apply frame_ret.
  - apply frame_bind; [apply frame_canonical_search_hit | intros _; apply IH].
Qed.

Lemma frame_canonical_search_by_title title :
  frame (fun mi => canonical_record mi /\ mi_pubdate mi = None) (fun _ => True)
        (search_by_title E title).
Proof.
  unfold search_by_title.
  repeat first [ apply frame_canonical_search_loop | frame_step ]. exact I.
Qed.
End Records.

(** X4.  Every record [identify] appends carries exactly one identifier, the
    provider's, with a non-empty value; its URL is the book URL of that id
    (the one [get_book_url] gives for the record's identifiers); publisher
    and language are the module's constants and there is exactly one author
    entry.  Records that come from a search never carry a publish date. *)
Theorem identify_records_are_canonical (E : Env) title identifiers
    (st : state Metadata) :
  exists new,
    queue (snd (identify E title identifiers st)) = queue st ++ new /\
    Forall (fun mi =>
              canonical_record mi /\
              exists id, get_book_url (mi_identifiers mi) =
                         Some (PROVIDER_ID, id, mi_url mi)) new /\
    (no_id identifiers -> Forall (fun mi => mi_pubdate mi = None) new).
Proof.
  assert (Hurl : forall mi, canonical_record mi ->
            exists id, get_book_url (mi_identifiers mi) =
                       Some (PROVIDER_ID, id, mi_url mi)).
  { intros mi (id & Hne & Hids & Hu & _). exists id.
    unfold get_book_url. rewrite Hids, Hu. simpl.
    destruct (String.eqb_spec id ""); [contradiction | reflexivity]. }
  unfold identify.
  destruct (lookup PROVIDER_ID identifiers) as [cp_id|] eqn:Hid.
  - destruct (String.eqb_spec cp_id EmptyString) as [->|Hne]; simpl.
    + destruct (frame_canonical_search_by_title E title st)
        as (new & _ & _ & Hq & HP & _).
      exists new. split; [exact Hq|]. split.
      * eapply Forall_impl; [|exact HP]. intros mi [Hc _]. auto.
      * intros _. eapply Forall_impl; [|exact HP]. intros mi [_ Hd]. exact Hd.
    + destruct (frame_canonical_identify_by_id E cp_id Hne st)
        as (new & _ & _ & Hq & HP & _).
      exists new. split; [exact Hq|]. split.
      * eapply Forall_impl; [|exact HP]. auto.
      * intros [Habs | Habs]; congruence.
  - destruct (frame_canonical_search_by_title E title st)
      as (new & _ & _ & Hq & HP & _).
    exists new. split; [exact Hq|]. split.
    + eapply Forall_impl; [|exact HP]. intros mi [Hc _]. auto.
    + intros _. eapply Forall_impl; [|exact HP]. intros mi [_ Hd]. exact Hd.
Qed.

Lemma identify_records_are_canonical_witness :
  exists new,
    queue (snd (identify good_world (Some "a"%string) [] start)) =
      queue (@start Metadata) ++ new /\
    Forall (fun mi => mi_pubdate mi = None) new.
Proof.
  destruct (identify_records_are_canonical good_world (Some "a"%string) []
              (@start Metadata)) as (new & Hq & _ & Hd).
  exists new. split; [exact Hq|]. apply Hd. left. reflexivity.
Defined.

(** ** Requests *)

Section Requests.
Variable E : Env.

Lemma identify_by_id_requests cp_id st :
  requests (snd (identify_by_id E cp_id st)) =
    requests st ++ [JStr (CHANGPEI_NOVEL_INFO cp_id)] \/
  requests (snd (identify_by_id E cp_id st)) =
    requests st ++ [JStr (CHANGPEI_NOVEL_INFO cp_id); JStr (CHANGPEI_CHAPTER_LIST cp_id)].
Proof.
  unfold identify_by_id. run.
  destruct (open_novisit E (length (requests st)) (JStr (CHANGPEI_NOVEL_INFO cp_id)))
    as [raw|]; simpl; [|left; reflexivity].
  destruct (json_loads E (strip raw)) as [data|]; simpl; [|left; reflexivity].
  destruct (detail_ok data) as [[|]|e]; simpl; try (left; reflexivity).
  destruct (py_getitem data "data") as [novel_data|e]; simpl; [|left; reflexivity].
  destruct novel_data as [| | | | |kv]; simpl; try (left; reflexivity).
  right.
  fold (get_or "novel_info" (JStr "") kv).
  destruct (negb (truthy (get_or "novel_info" (JStr "") kv))); simpl;
    fold (after_detail cp_id st);
    destruct (get_first_chapter_publish_date_shape E cp_id (after_detail cp_id st))
      as (d & l & ->); simpl; rewrite <- app_assoc; reflexivity.
Qed.
End Requests.

(** X5.  The requests a call of [identify] issues: with a non-empty id, the
    detail request and then at most the chapter-list request for the same
    id, never a search; without one and with a title that can be encoded,
    the search request for the quoted title and nothing else, whatever the
    number of hits. *)
Theorem identify_requests (E : Env) title identifiers (st : state Metadata) :
  (forall cp_id,
     lookup PROVIDER_ID identifiers = Some cp_id -> cp_id <> EmptyString ->
     requests (snd (identify E title identifiers st)) =
       requests st ++ [JStr (CHANGPEI_NOVEL_INFO cp_id)] \/
     requests (snd (identify E title identifiers st)) =
       requests st ++ [JStr (CHANGPEI_NOVEL_INFO cp_id);
                       JStr (CHANGPEI_CHAPTER_LIST cp_id)]) /\
  (no_id identifiers ->
   encodable (normalized title) = true ->
     requests (snd (identify E title identifiers st)) =
       requests st ++ [JStr (CHANGPEI_SEARCH_API (quote (normalized title)))]).
Proof.
  split.
  - intros cp_id Hid Hne. rewrite (identify_with_id E title identifiers cp_id Hid Hne).
    apply identify_by_id_requests.
  - intros Hno _. rewrite (identify_no_id E title identifiers Hno).
    destruct (search_by_title_eval E title st) as (k & l & ->). reflexivity.
Qed.

Lemma identify_requests_witness :
  requests (snd (identify good_world (Some "a b"%string) [] start)) =
  [JStr "https://www.gongzicp.com/webapi/search/novels?k=a%20b&page=1"].
Proof.
  destruct (identify_requests good_world (Some "a b"%string) [] (@start Metadata))
    as [_ Hsearch].
  rewrite Hsearch; [reflexivity | left; reflexivity | reflexivity].
Defined.

(** X6.  Publish-date enrichment never fails and never touches the result
    queue: whatever the chapter endpoint does (transport error, invalid
    JSON, values of unexpected types), [get_first_chapter_publish_date]
    returns a date or [None], having issued exactly one request. *)
Theorem enrichment_never_fails (E : Env) (Q : Type) novel_id (st : state Q) :
  exists d l,
    get_first_chapter_publish_date E novel_id st =
    (Ok d, mk_state (queue st) (log st ++ l)
                    (requests st ++ [JStr (CHANGPEI_CHAPTER_LIST novel_id)])).
Proof. apply get_first_chapter_publish_date_shape. Qed.

(** ** Enrichment failures *)

Section Enrichment.
Variable E : Env.

Lemma get_first_chapter_publish_date_fetch_error {Q} id (st : state Q) :
  fetch_error E (length (requests st)) (CHANGPEI_CHAPTER_LIST id) ->
  exists l,
    get_first_chapter_publish_date E id st =
    (Ok None, mk_state (queue st) (log st ++ l)
                       (requests st ++ [JStr (CHANGPEI_CHAPTER_LIST id)])) /\
    (open_novisit E (length (requests st)) (JStr (CHANGPEI_CHAPTER_LIST id)) = None ->
     l = [(EXCEPTION, ErrorGettingFirstChapter URLError)]) /\
    (forall raw,
       open_novisit E (length (requests st)) (JStr (CHANGPEI_CHAPTER_LIST id)) = Some raw ->
       json_loads E (strip raw) = None ->
       l = [(EXCEPTION, ErrorGettingFirstChapter JSONDecodeError)]) /\
    (forall raw kv,
       open_novisit E (length (requests st)) (JStr (CHANGPEI_CHAPTER_LIST id)) = Some raw ->
       json_loads E (strip raw) = Some (JObj kv) ->
       l = []).
Proof.
  intros [H1 | raw H1 H2 | raw kv H1 H2 H3];
    unfold get_first_chapter_publish_date; run; rewrite H1; simpl.
  - eexists. split; [reflexivity|]. repeat split; congruence.
  - rewrite H2. simpl. eexists. split; [reflexivity|]. repeat split; congruence.
  - rewrite H2. rewrite (list_ok_failure kv H3). simpl.
    exists []. rewrite app_nil_r. split; [reflexivity|]. repeat split; congruence.
Qed.

Lemma no_item_no_first_chapter chapters :
  Forall (fun c => type_item c = false) chapters ->
  spec_first_chapter chapters = None.
Proof.
  intros Hno. rewrite Forall_forall in Hno. unfold spec_first_chapter.
  destruct (find order_1_item chapters) as [c|] eqn:H1.
  - apply find_some in H1 as [Hin Hc]. specialize (Hno c Hin).
    unfold order_1_item in Hc. unfold type_item in Hno.
    rewrite Hno, andb_false_r in Hc. discriminate.
  - destruct (find type_item chapters) as [c|] eqn:H2; [|reflexivity].
    apply find_some in H2 as [Hin Hc]. rewrite (Hno c Hin) in Hc. discriminate.
Qed.
End Enrichment.

(** X7.  In a Lookup-by-ID call whose detail fetch succeeds, a failing
    chapter-list fetch never costs the record: it is appended with the
    publish date unset and the call returns normally.  A transport error or
    an invalid body is logged as an exception; a chapter-list envelope
    without code 200 or without data is passed over in silence, with no log
    line besides the opening one. *)
Theorem lookup_survives_chapter_errors (E : Env) title identifiers cp_id novel_data
    (st : state Metadata) :
  lookup PROVIDER_ID identifiers = Some cp_id ->
  cp_id <> EmptyString ->
  answers E (length (requests st)) (CHANGPEI_NOVEL_INFO cp_id) novel_data ->
  fetch_error E (S (length (requests st))) (CHANGPEI_CHAPTER_LIST cp_id) ->
  fst (identify E title identifiers st) = Ok tt /\
  queue (snd (identify E title identifiers st)) =
    queue st ++ [detail_record cp_id novel_data None] /\
  (open_novisit E (S (length (requests st))) (JStr (CHANGPEI_CHAPTER_LIST cp_id)) = None ->
   log (snd (identify E title identifiers st)) =
     log st ++ [(INFO, IdentifyWithId cp_id (CHANGPEI_NOVEL_INFO cp_id));
                (EXCEPTION, ErrorGettingFirstChapter URLError)]) /\
  (forall raw kv,
     open_novisit E (S (length (requests st))) (JStr (CHANGPEI_CHAPTER_LIST cp_id)) =
       Some raw ->
     json_loads E (strip raw) = Some (JObj kv) ->
     log (snd (identify E title identifiers st)) =
       log st ++ [(INFO, IdentifyWithId cp_id (CHANGPEI_NOVEL_INFO cp_id))]).
Proof.
  intros Hid Hne Hdetail Herr.
  rewrite (identify_with_id E title identifiers cp_id Hid Hne).
  assert (Hn : length (requests (after_detail cp_id st)) = S (length (requests st))).
  { simpl. rewrite length_app. simpl. lia. }
  rewrite <- Hn in *.
  destruct (get_first_chapter_publish_date_fetch_error E cp_id (after_detail cp_id st) Herr)
    as (l & Heval & Htransport & _ & Hsilent).
  rewrite (identify_by_id_step E cp_id st novel_data None _ Hdetail Heval).
  simpl. repeat split.
  - intros Hopen. rewrite (Htransport Hopen), <- app_assoc. reflexivity.
  - intros raw kv Hopen Hloads. rewrite (Hsilent raw kv Hopen Hloads), app_nil_r.
    reflexivity.
Qed.

Lemma lookup_survives_chapter_errors_witness :
  queue (snd (identify refused_chapter_world None [(PROVIDER_ID, "42"%string)] start)) =
    queue (@start Metadata) ++ [detail_record "42" detail_payload None] /\
  log (snd (identify refused_chapter_world None [(PROVIDER_ID, "42"%string)] start)) =
    log (@start Metadata) ++
    [(INFO, IdentifyWithId "42" (CHANGPEI_NOVEL_INFO "42"))].
Proof.
  destruct (lookup_survives_chapter_errors refused_chapter_world None
              [(PROVIDER_ID, "42"%string)] "42"%string detail_payload (@start Metadata))
    as (_ & Hq & _ & Hsilent).
  - reflexivity.
  - discriminate.
  - answered.
  - apply (upstream_failure refused_chapter_world 1 (CHANGPEI_CHAPTER_LIST "42")
             "refused" [("code", JNum 500)]); [reflexivity | reflexivity | right; reflexivity].
  - split; [exact Hq|].
    apply (Hsilent "refused"%string [("code", JNum 500)]); reflexivity.
Defined.

(** X8.  A chapter list without any entry of type "item" gives no publish
    date and is no error: an empty list is noted at INFO level, a list of
    other entries (volume headings, say) leaves no trace in the log. *)
Theorem no_item_chapter_gives_no_date (E : Env) (Q : Type) novel_id chapter_data chapters
    (st : state Q) :
  answers E (length (requests st)) (CHANGPEI_CHAPTER_LIST novel_id) chapter_data ->
  lookup "list" chapter_data = Some (JArr chapters) ->
  Forall is_object chapters ->
  Forall (fun c => type_item c = false) chapters ->
  get_first_chapter_publish_date E novel_id st =
  (Ok None,
   mk_state (queue st)
            (log st ++ match chapters with
                       | [] => [(INFO, NoChaptersFound novel_id)]
                       | _ :: _ => []
                       end)
            (requests st ++ [JStr (CHANGPEI_CHAPTER_LIST novel_id)])).
Proof.
  intros (raw & kv & H1 & H2 & H3 & H4) Hl Hobj Hno.
  unfold get_first_chapter_publish_date. run.
  rewrite H1. simpl. rewrite H2.
  unfold list_ok, detail_ok, code_is_200. simpl. rewrite H3. simpl. rewrite H4. simpl.
  rewrite Hl. simpl.
  destruct chapters as [|c0 rest]; simpl; [reflexivity|].
  rewrite (select_first_chapter_spec _ Hobj).
  rewrite (no_item_no_first_chapter _ Hno). simpl. rewrite app_nil_r. reflexivity.
Qed.

Lemma no_item_chapter_gives_no_date_witness :
  get_first_chapter_publish_date
    (world_of [(CHANGPEI_CHAPTER_LIST "9", "volumes"%string)] more_bodies) "9" (@start Metadata) =
  (Ok None, mk_state [] [] [JStr (CHANGPEI_CHAPTER_LIST "9")]).
Proof.
  apply (no_item_chapter_gives_no_date
           (world_of [(CHANGPEI_CHAPTER_LIST "9", "volumes"%string)] more_bodies) Metadata "9"
           [("list", JArr [JObj [("type", JStr "volume"); ("order", JStr "1")]])]
           [JObj [("type", JStr "volume"); ("order", JStr "1")]]
           start).
  - answered.
  - reflexivity.
  - repeat constructor. eexists. reflexivity.
  - repeat constructor.
Defined.

(** ** Cover fetch *)

Ltac cover_leaf :=
  first
    [ exists []; eexists; exists []; rewrite app_nil_r; split;
      [rewrite <- ?app_assoc; reflexivity | simpl; lia]
    | exists []; eexists; eexists [_]; rewrite app_nil_r; split;
      [rewrite <- ?app_assoc; reflexivity | simpl; lia]
    | eexists [_]; eexists; eexists [_]; split;
      [rewrite <- ?app_assoc; reflexivity | simpl; lia] ].

Section Covers.
Variable E : Env.

(** A detail fetch, at most one image download, at most one item put, and
    none without a download. *)
Lemma fetch_cover_shape cp_id st :
  exists new l r,
    fetch_cover E cp_id st =
    (Ok tt, mk_state (queue st ++ new) (log st ++ l)
                     (requests st ++ JStr (CHANGPEI_NOVEL_INFO cp_id) :: r)) /\
    length new <= length r <= 1.
Proof.
  unfold fetch_cover. run.
  destruct (open_novisit E (length (requests st)) (JStr (CHANGPEI_NOVEL_INFO cp_id)))
    as [raw|]; simpl; [|cover_leaf].
  destruct (json_loads E (strip raw)) as [data|]; simpl; [|cover_leaf].
  destruct (detail_ok data) as [[|]|e]; simpl; try cover_leaf.
  destruct (py_getitem data "data") as [novel_data|e]; simpl; [|cover_leaf].
  destruct (py_get novel_data "novel_cover" (JStr "")) as [cover_url|e]; simpl;
    [|cover_leaf].
  destruct (truthy cover_url); simpl; [|cover_leaf].
  match goal with
  | |- context [open_novisit E ?n cover_url] =>
      destruct (open_novisit E n cover_url) as [cdata|]
  end; simpl; [|cover_leaf].
  destruct (negb (cdata =? "")%string); simpl; cover_leaf.
Qed.
End Covers.

Section CoverSteps.
Variable E : Env.

(** After a nested identify that found something, [download_cover] goes on
    with the first record. *)
Lemma download_cover_continues title identifiers st first others :
  lookup PROVIDER_ID identifiers = None ->
  queue (snd (nested_identify E title identifiers st)) = first :: others ->
  download_cover E false title identifiers st =
  cover_for E (external_id first) (after_nested E title identifiers st).
Proof.
  intros Hid Hq. unfold download_cover. rewrite Hid.
  unfold bind at 1. unfold log_msg at 1. unfold bind at 1. unfold with_new_queue.
  cbn [queue log requests].
  unfold after_nested.
  fold (nested_identify E title identifiers st).
  destruct (returns_identify E title identifiers
              (mk_state [] (log st ++ [(INFO, NoIdRunningIdentify)]) (requests st)))
    as [[] Hok].
  fold (nested_identify E title identifiers st) in Hok.
  destruct (nested_identify E title identifiers st) as [r st'].
  simpl in Hok, Hq |- *. subst r. rewrite Hq. reflexivity.
Qed.

Lemma nested_identify_first title identifiers st first others :
  queue (snd (nested_identify E title identifiers st)) = first :: others ->
  has_external_id first.
Proof.
  unfold nested_identify. intros Hq.
  destruct (frame_identify E title identifiers
              (mk_state [] (log st ++ [(INFO, NoIdRunningIdentify)]) (requests st)))
    as (new & _ & _ & Hnew & HP & _).
  rewrite Hq in Hnew. simpl in Hnew. subst new. exact (Forall_inv HP).
Qed.

Lemma nested_identify_requests title identifiers st :
  lookup PROVIDER_ID identifiers = None ->
  requests (snd (nested_identify E title identifiers st)) =
  requests st ++ [JStr (search_url title)].
Proof.
  intros Hid. unfold nested_identify.
  rewrite (identify_no_id E title identifiers (or_introl Hid)).
  match goal with
  | |- context [search_by_title E title ?s] =>
      destruct (search_by_title_eval E title s) as (k & l & ->)
  end.
  reflexivity.
Qed.
End CoverSteps.

Lemma download_cover_with_id_shape_aux (E : Env) abort title identifiers cp_id
    (st : state string) :
  lookup PROVIDER_ID identifiers = Some cp_id ->
  exists new l r,
    download_cover E abort title identifiers st =
    (Ok tt, mk_state (queue st ++ new) (log st ++ l)
                     (requests st ++ JStr (CHANGPEI_NOVEL_INFO cp_id) :: r)) /\
    length new <= length r <= 1.
Proof.
  intros Hid. unfold download_cover. rewrite Hid. simpl cover_for.
  apply fetch_cover_shape.
Qed.

(** X9.  Cover-Fetch with an identifier goes straight to the detail fetch:
    neither the title nor the cancellation flag has any effect, no identify
    is run, the first request is the detail request for that id, at most one
    image download follows, and at most one item is put on the queue, only
    after a download. *)
Theorem download_cover_with_id (E : Env) abort title identifiers cp_id
    (st : state string) :
  lookup PROVIDER_ID identifiers = Some cp_id ->
  (forall abort' title',
     download_cover E abort title identifiers st =
     download_cover E abort' title' identifiers st) /\
  exists new l r,
    download_cover E abort title identifiers st =
    (Ok tt, mk_state (queue st ++ new) (log st ++ l)
                     (requests st ++ JStr (CHANGPEI_NOVEL_INFO cp_id) :: r)) /\
    length new <= length r <= 1.
Proof.
  intros Hid. split.
  - intros abort' title'. unfold download_cover. rewrite Hid. reflexivity.
  - unfold download_cover. rewrite Hid. simpl cover_for. apply fetch_cover_shape.
Qed.

Lemma download_cover_with_id_witness :
  download_cover good_world true None [(PROVIDER_ID, "12"%string)] start =
  download_cover good_world false (Some "a"%string) [(PROVIDER_ID, "12"%string)] start.
Proof.
  destruct (download_cover_with_id good_world true None [(PROVIDER_ID, "12"%string)]
              "12"%string (@start string)) as [Hsame _].
  - reflexivity.
  - apply Hsame.
Defined.

(** X10.  Cover-Fetch for a known id whose detail payload names a cover and
    whose image download returns a non-empty body puts exactly that body on
    the queue, after exactly two requests: the detail URL, then the cover
    URL as the payload gave it. *)
Theorem download_cover_success (E : Env) abort title identifiers cp_id novel_data
    cover_url cdata (st : state string) :
  lookup PROVIDER_ID identifiers = Some cp_id ->
  answers E (length (requests st)) (CHANGPEI_NOVEL_INFO cp_id) novel_data ->
  lookup "novel_cover" novel_data = Some cover_url ->
  truthy cover_url = true ->
  open_novisit E (S (length (requests st))) cover_url = Some cdata ->
  cdata <> EmptyString ->
  download_cover E abort title identifiers st =
  (Ok tt,
   mk_state (queue st ++ [cdata])
            (log st ++ [(INFO, GettingCover (CHANGPEI_NOVEL_INFO cp_id));
                        (INFO, FoundCoverUrl cover_url)])
            (requests st ++ [JStr (CHANGPEI_NOVEL_INFO cp_id); cover_url])).
Proof.
  intros Hid (raw & kv & H1 & H2 & H3 & H4) Hc Ht Himg Hne.
  unfold download_cover. rewrite Hid. simpl cover_for.
  unfold fetch_cover. run. rewrite H1. simpl. rewrite H2.
  unfold detail_ok, code_is_200. simpl. rewrite H3. simpl. rewrite H4. simpl.
  rewrite Hc, Ht. simpl.
  rewrite length_app. simpl. rewrite Nat.add_1_r, Himg. simpl.
  destruct (String.eqb_spec cdata ""); [contradiction|]. simpl.
  rewrite <- !app_assoc. reflexivity.
Qed.

Lemma download_cover_success_witness :
  download_cover good_world false None [(PROVIDER_ID, "12"%string)] start =
  (Ok tt,
   mk_state ["IMG"%string]
            [(INFO, GettingCover (CHANGPEI_NOVEL_INFO "12"));
             (INFO, FoundCoverUrl (JStr "http://c/1.jpg"))]
            [JStr (CHANGPEI_NOVEL_INFO "12"); JStr "http://c/1.jpg"]).
Proof.
  apply (download_cover_success good_world false None [(PROVIDER_ID, "12"%string)]
           "12"%string detail_payload (JStr "http://c/1.jpg") "IMG"%string start).
  - reflexivity.
  - answered.
  - reflexivity.
  - reflexivity.
  - reflexivity.
  - discriminate.
Defined.

(** X11.  Cover-Fetch gives up without a diagnostic in two cases: when the
    detail payload has no cover or an empty one, no image request is made
    and the log holds only the opening line; when the image body comes back
    empty, nothing is put although the download took place. *)
Theorem download_cover_silent (E : Env) abort title identifiers cp_id novel_data
    (st : state string) :
  lookup PROVIDER_ID identifiers = Some cp_id ->
  answers E (length (requests st)) (CHANGPEI_NOVEL_INFO cp_id) novel_data ->
  (truthy (get_or "novel_cover" (JStr "") novel_data) = false ->
   download_cover E abort title identifiers st =
   (Ok tt,
    mk_state (queue st)
             (log st ++ [(INFO, GettingCover (CHANGPEI_NOVEL_INFO cp_id))])
             (requests st ++ [JStr (CHANGPEI_NOVEL_INFO cp_id)]))) /\
  (forall cover_url,
     lookup "novel_cover" novel_data = Some cover_url ->
     truthy cover_url = true ->
     open_novisit E (S (length (requests st))) cover_url = Some EmptyString ->
     download_cover E abort title identifiers st =
     (Ok tt,
      mk_state (queue st)
               (log st ++ [(INFO, GettingCover (CHANGPEI_NOVEL_INFO cp_id));
                           (INFO, FoundCoverUrl cover_url)])
               (requests st ++ [JStr (CHANGPEI_NOVEL_INFO cp_id); cover_url]))).
Proof.
  intros Hid (raw & kv & H1 & H2 & H3 & H4).
  unfold download_cover. rewrite Hid. simpl cover_for. split.
  - intros Hc. unfold fetch_cover. run. rewrite H1. simpl. rewrite H2.
    unfold detail_ok, code_is_200. simpl. rewrite H3. simpl. rewrite H4. simpl.
    fold (get_or "novel_cover" (JStr "") novel_data). rewrite Hc. reflexivity.
  - intros cover_url Hc Ht Himg. unfold fetch_cover. run. rewrite H1. simpl. rewrite H2.
    unfold detail_ok, code_is_200. simpl. rewrite H3. simpl. rewrite H4. simpl.
    rewrite Hc, Ht. simpl.
    rewrite length_app. simpl. rewrite Nat.add_1_r, Himg. simpl.
    rewrite <- !app_assoc. reflexivity.
Qed.

Lemma download_cover_silent_witness :
  download_cover (world_of [(CHANGPEI_NOVEL_INFO "5", "coverless"%string)] more_bodies)
                 false None [(PROVIDER_ID, "5"%string)] start =
  (Ok tt,
   mk_state [] [(INFO, GettingCover (CHANGPEI_NOVEL_INFO "5"))]
            [JStr (CHANGPEI_NOVEL_INFO "5")]).
Proof.
  destruct (download_cover_silent
              (world_of [(CHANGPEI_NOVEL_INFO "5", "coverless"%string)] more_bodies)
              false None [(PROVIDER_ID, "5"%string)] "5"%string
              [("novel_name", JStr "Rain")] (@start string)) as [Hnone _].
  - reflexivity.
  - answered.
  - apply Hnone. reflexivity.
Defined.

(** X12.  Cover-Fetch without an identifier, not cancelled, whose nested
    identify found something, continues with the identifier of the first
    record found, which is never empty: it performs the detail fetch for
    that id, so the "no id after identify" branch is not taken. *)
Theorem download_cover_uses_first_record (E : Env) title identifiers first others
    (st : state string) :
  lookup PROVIDER_ID identifiers = None ->
  queue (snd (nested_identify E title identifiers st)) = first :: others ->
  exists id,
    external_id first = Some id /\ id <> EmptyString /\
    download_cover E false title identifiers st =
    fetch_cover E id (after_nested E title identifiers st).
Proof.
  intros Hid Hq.
  destruct (nested_identify_first E title identifiers st first others Hq)
    as (id & Hext & Hne).
  exists id. repeat split; try assumption.
  rewrite (download_cover_continues E title identifiers st first others Hid Hq).
  rewrite Hext. reflexivity.
Qed.

Lemma download_cover_uses_first_record_witness :
  requests (snd (download_cover good_world false (Some "a"%string) [] start)) =
  [JStr (search_url (Some "a"%string)); JStr (CHANGPEI_NOVEL_INFO "12");
   JStr "http://c/1.jpg"].
Proof.
  destruct (download_cover_uses_first_record good_world (Some "a"%string) []
              (search_record (repr_str good_world)
                 [("novel_id", JNum 12);
                  ("novel_cover", JStr "http://c/12.jpg?x-oss-process=style/small")]
                 (JStr "http://c/12.jpg"))
              [search_record (repr_str good_world) [("novel_id", JStr "7")]
                 (JStr CHANGPEI_NO_BOOKCOVER_URL)]
              (@start string)) as (id & Hext & _ & Hrun).
  - reflexivity.
  - reflexivity.
  - rewrite Hrun. injection Hext as <-. reflexivity.
Defined.

(** X13.  Whatever the network does, a Cover-Fetch call that is given an
    identifier, or else a title that can be encoded, returns normally,
    leaves the items already on the queue in place, puts at most one cover
    after them, and issues at most three requests (search, detail, image). *)
Theorem download_cover_at_most_one (E : Env) abort title identifiers (st : state string) :
  (lookup PROVIDER_ID identifiers = None -> encodable (normalized title) = true) ->
  exists new r,
    fst (download_cover E abort title identifiers st) = Ok tt /\
    queue (snd (download_cover E abort title identifiers st)) = queue st ++ new /\
    length new <= 1 /\
    requests (snd (download_cover E abort title identifiers st)) = requests st ++ r /\
    length r <= 3.
Proof.
  intros _.
  destruct (lookup PROVIDER_ID identifiers) as [cp_id|] eqn:Hid.
  - destruct (download_cover_with_id_shape_aux E abort title identifiers cp_id st Hid)
      as (new & l & r & -> & Hlen).
    exists new, (JStr (CHANGPEI_NOVEL_INFO cp_id) :: r). simpl. repeat split; lia.
  - pose proof (nested_identify_requests E title identifiers st Hid) as Hreq.
    destruct abort.
    + rewrite (download_cover_stops E true title identifiers st Hid (or_introl eq_refl)).
      exists [], [JStr (search_url title)]. simpl.
      rewrite app_nil_r, Hreq. repeat split; lia.
    + destruct (queue (snd (nested_identify E title identifiers st)))
        as [|first others] eqn:Hq.
      * rewrite (download_cover_stops E false title identifiers st Hid (or_intror Hq)).
        exists [], [JStr (search_url title)]. simpl.
        rewrite app_nil_r, Hreq. repeat split; lia.
      * destruct (nested_identify_first E title identifiers st first others Hq)
          as (id & Hext & _).
        rewrite (download_cover_continues E title identifiers st first others Hid Hq).
        rewrite Hext. simpl cover_for.
        destruct (fetch_cover_shape E id (after_nested E title identifiers st))
          as (new & l & r & -> & Hlen).
        exists new, (JStr (search_url title) :: JStr (CHANGPEI_NOVEL_INFO id) :: r).
        simpl. rewrite Hreq, <- app_assoc. simpl. repeat split; lia.
Qed.

Lemma download_cover_at_most_one_witness :
  exists new r,
    fst (download_cover good_world false (Some "a"%string) [] (@start string)) = Ok tt /\
    queue (snd (download_cover good_world false (Some "a"%string) [] (@start string))) =
      queue (@start string) ++ new /\
    length new <= 1 /\
    requests (snd (download_cover good_world false (Some "a"%string) [] (@start string))) =
      requests (@start string) ++ r /\
    length r <= 3.
Proof.
  apply (download_cover_at_most_one good_world false (Some "a"%string) [] start).
  intros _. reflexivity.
Defined.

(** ** Search edge cases *)

Section SearchEdges.
Variable E : Env.

(** Well-formed entries at the head of the list are worked off one by one. *)
Lemma search_loop_app before rest :
  Forall well_formed_hit before ->
  forall i st,
  exists l,
    search_loop E i (before ++ rest) st =
    search_loop E (i + length before) rest
                (mk_state (queue st ++ records_of (repr_str E) before)
                          (log st ++ l) (requests st)).
Proof.
  induction before as [|b before IH]; intros Hwf i st.
  - exists []. simpl. rewrite Nat.add_0_r, !app_nil_r. destruct st. reflexivity.
  - pose proof (Forall_inv Hwf) as Hb.
    specialize (IH (Forall_inv_tail Hwf)).
    destruct (hit_record_well_formed (repr_str E) b Hb) as [o Ho].
    pose proof (search_hit_eval E i b st) as Hhit. rewrite Ho in Hhit.
    change (search_loop E i ((b :: before) ++ rest) st)
      with (bind (search_hit E i b)
                 (fun _ => search_loop E (S i) (before ++ rest)) st).
    unfold bind. simpl records_of. unfold record_of. rewrite Ho.
    replace (i + length (b :: before)) with (S i + length before) by (simpl; lia).
    destruct o as [mi|].
    + destruct Hhit as [m ->].
      destruct (IH (S i) (mk_state (queue st ++ [mi]) (log st ++ [(INFO, m)]) (requests st)))
        as [l ->].
      exists ((INFO, m) :: l). simpl. rewrite <- !app_assoc. reflexivity.
    + rewrite Hhit.
      destruct (IH (S i) (mk_state (queue st) (log st ++ [(ERROR, CantFindBookId i)])
                                   (requests st))) as [l ->].
      exists ((ERROR, CantFindBookId i) :: l). simpl. rewrite <- !app_assoc. reflexivity.
Qed.
End SearchEdges.

(** X14.  A search response whose list holds an entry that is not an object
    gives partial results: the records of the well-formed entries before it
    stay on the queue, the attribute error is caught and logged, nothing of
    what follows the entry is appended, and the call returns normally. *)
Theorem search_stops_at_malformed_entry (E : Env) title identifiers d before bad after
    count (st : state Metadata) :
  no_id identifiers ->
  answers E (length (requests st)) (search_url title) d ->
  lookup "list" d = Some (JArr (before ++ bad :: after)) ->
  lookup "count" d = Some (JNum count) ->
  Forall well_formed_hit before ->
  ~ is_object bad ->
  fst (identify E title identifiers st) = Ok tt /\
  queue (snd (identify E title identifiers st)) =
    queue st ++ records_of (repr_str E) before /\
  In (EXCEPTION, ErrorUsingSearchApi AttributeError)
     (log (snd (identify E title identifiers st))).
Proof.
  intros Hno (raw & kv & H1 & H2 & H3 & H4) Hl Hc Hwf Hbad.
  rewrite (identify_no_id E title identifiers Hno).
  unfold search_by_title. fold (normalized title). fold (search_url title).
  run. rewrite H1. simpl. rewrite H2.
  unfold list_ok, detail_ok, code_is_200. simpl. rewrite H3. simpl. rewrite H4. simpl.
  rewrite Hl. simpl. rewrite Hc. simpl.
  match goal with
  | |- context [search_loop E 0 (before ++ bad :: after) ?s] =>
      destruct (search_loop_app E before (bad :: after) Hwf 0 s) as [l ->]
  end.
  cbn [search_loop]. unfold bind.
  pose proof (search_hit_eval E (0 + length before) bad) as Hhit.
  assert (Hraise : hit_record (repr_str E) bad = Raise AttributeError).
  { destruct bad; try reflexivity. exfalso. apply Hbad. eexists. reflexivity. }
  rewrite Hraise in Hhit. rewrite Hhit. simpl.
  repeat split. apply in_or_app. right. left. reflexivity.
Qed.

Lemma search_stops_at_malformed_entry_witness :
  map external_id
      (queue (snd (identify (world_of [(search_url (Some "a"%string), "broken"%string)]
                                      more_bodies)
                            (Some "a"%string) [] start))) =
  [Some "12"%string].
Proof.
  destruct (search_stops_at_malformed_entry
              (world_of [(search_url (Some "a"%string), "broken"%string)] more_bodies)
              (Some "a"%string) []
              [("count", JNum 3);
               ("list", JArr [JObj [("novel_id", JNum 12)]; JStr "oops";
                              JObj [("novel_id", JNum 7)]])]
              [JObj [("novel_id", JNum 12)]] (JStr "oops") [JObj [("novel_id", JNum 7)]]
              3%Z (@start Metadata)) as (_ & Hq & _).
  - left. reflexivity.
  - answered.
  - reflexivity.
  - reflexivity.
  - repeat constructor. eexists. split; [reflexivity | left; reflexivity].
  - intros [kv Hkv]. discriminate Hkv.
  - rewrite Hq. reflexivity.
Defined.

(** X15.  The [count] of a search response has to be a number: when it is
    present but, say, a string, formatting the log line raises, the error is
    caught and logged, and the call appends nothing although the list holds
    entries. *)
Theorem search_with_bad_count_appends_nothing (E : Env) title identifiers d books count
    (st : state Metadata) :
  no_id identifiers ->
  answers E (length (requests st)) (search_url title) d ->
  lookup "list" d = Some (JArr books) ->
  lookup "count" d = Some count ->
  (forall n, count <> JNum n) ->
  (forall b, count <> JBool b) ->
  identify E title identifiers st =
  (Ok tt,
   mk_state (queue st)
            (log st ++ [(INFO, SearchWithTitle (normalized title) (search_url title));
                        (EXCEPTION, ErrorUsingSearchApi TypeError)])
            (requests st ++ [JStr (search_url title)])).
Proof.
  intros Hno (raw & kv & H1 & H2 & H3 & H4) Hl Hc Hnum Hbool.
  rewrite (identify_no_id E title identifiers Hno).
  unfold search_by_title. fold (normalized title). fold (search_url title).
  run. rewrite H1. simpl. rewrite H2.
  unfold list_ok, detail_ok, code_is_200. simpl. rewrite H3. simpl. rewrite H4. simpl.
  rewrite Hl. simpl. rewrite Hc. simpl.
  destruct count as [|b|n| | |]; simpl;
    try (rewrite <- app_assoc; reflexivity).
  - exfalso. apply (Hbool b). reflexivity.
  - exfalso. apply (Hnum n). reflexivity.
Qed.

Lemma search_with_bad_count_appends_nothing_witness :
  queue (snd (identify (world_of [(search_url (Some "a"%string), "textcount"%string)]
                                 more_bodies)
                       (Some "a"%string) [] (@start Metadata))) = [].
Proof.
  rewrite (search_with_bad_count_appends_nothing
             (world_of [(search_url (Some "a"%string), "textcount"%string)] more_bodies)
             (Some "a"%string) []
             [("count", JStr "3"); ("list", JArr [JObj [("novel_id", JNum 12)]])]
             [JObj [("novel_id", JNum 12)]] (JStr "3") start).
  - reflexivity.
  - left. reflexivity.
  - answered.
  - reflexivity.
  - reflexivity.
  - discriminate.
  - discriminate.
Defined.

(** ** Cover URLs *)

(** X16.  The placeholder cover is applied differently by the two paths.  A
    search hit gets it only when its [novel_cover] key is missing; an empty
    cover string is kept as it is.  A record looked up by id gets it when
    the cover is missing and also when it is empty. *)
Theorem cover_placeholder_rules (E : Env) :
  (forall i kv (st : state Metadata),
     truthy (get_or "novel_id" (JStr "") kv) = true ->
     lookup "novel_cover" kv = None ->
     exists mi m,
       search_hit E i (JObj kv) st =
       (Ok tt, mk_state (queue st ++ [mi]) (log st ++ [(INFO, m)]) (requests st)) /\
       mi_cover mi = JStr CHANGPEI_NO_BOOKCOVER_URL) /\
  (forall i kv (st : state Metadata),
     truthy (get_or "novel_id" (JStr "") kv) = true ->
     lookup "novel_cover" kv = Some (JStr "") ->
     exists mi m,
       search_hit E i (JObj kv) st =
       (Ok tt, mk_state (queue st ++ [mi]) (log st ++ [(INFO, m)]) (requests st)) /\
       mi_cover mi = JStr "") /\
  (forall title identifiers cp_id novel_data (st : state Metadata),
     lookup PROVIDER_ID identifiers = Some cp_id -> cp_id <> EmptyString ->
     answers E (length (requests st)) (CHANGPEI_NOVEL_INFO cp_id) novel_data ->
     lookup "novel_cover" novel_data = None \/
     lookup "novel_cover" novel_data = Some (JStr "") ->
     exists mi,
       queue (snd (identify E title identifiers st)) = queue st ++ [mi] /\
       mi_cover mi = JStr CHANGPEI_NO_BOOKCOVER_URL).
Proof.
  repeat apply conj.
  - intros i kv st Hid Hc.
    pose proof (search_hit_eval E i (JObj kv) st) as Hhit.
    unfold hit_record in Hhit. rewrite Hid in Hhit. simpl negb in Hhit. cbv iota in Hhit.
    unfold get_or at 1 in Hhit. rewrite Hc in Hhit.
    rewrite normalize_cover_str in Hhit. simpl rbind in Hhit.
    destruct Hhit as [m Hm]. eexists _, m. split; [exact Hm | reflexivity].
  - intros i kv st Hid Hc.
    pose proof (search_hit_eval E i (JObj kv) st) as Hhit.
    unfold hit_record in Hhit. rewrite Hid in Hhit. simpl negb in Hhit. cbv iota in Hhit.
    unfold get_or at 1 in Hhit. rewrite Hc in Hhit.
    rewrite normalize_cover_str in Hhit. simpl rbind in Hhit.
    destruct Hhit as [m Hm]. eexists _, m. split; [exact Hm | reflexivity].
  - intros title identifiers cp_id novel_data st Hid Hne Hdetail Hc.
    rewrite (identify_with_id E title identifiers cp_id Hid Hne).
    destruct (identify_by_id_success E cp_id st novel_data Hdetail) as (d & l & _ & ->).
    eexists. split; [reflexivity|].
    unfold detail_record, get_or. simpl mi_cover.
    destruct Hc as [-> | ->]; reflexivity.
Qed.

Lemma cover_placeholder_rules_witness :
  exists mi m,
    search_hit good_world 0 (JObj [("novel_id", JNum 5); ("novel_cover", JStr "")])
               (@start Metadata) =
    (Ok tt, mk_state ([] ++ [mi]) ([] ++ [(INFO, m)]) []) /\
    mi_cover mi = JStr "".
Proof.
  destruct (cover_placeholder_rules good_world) as (_ & Hempty & _).
  apply (Hempty 0 [("novel_id", JNum 5); ("novel_cover", JStr "")] start);
    reflexivity.
Defined.

Lemma starts_with_append pat rest : starts_with pat (pat ++ rest)%string = true.
Proof.
  induction pat as [|c pat IH]; simpl; [reflexivity|].
  rewrite Ascii.eqb_refl. exact IH.
Qed.

Lemma append_nil_r (s : string) : (s ++ "")%string = s.
Proof. induction s as [|c s IH]; simpl; [reflexivity | rewrite IH; reflexivity]. Qed.

Lemma split_head_prefix pat s : exists t, s = (split_head pat s ++ t)%string.
Proof.
  induction s as [|c s IH]; simpl.
  - destruct (starts_with pat ""); exists EmptyString; reflexivity.
  - destruct (starts_with pat (String c s)).
    + exists (String c s). reflexivity.
    + destruct IH as [t Ht]. exists t. simpl. rewrite <- Ht. reflexivity.
Qed.

(** X17.  Stripping the thumbnail style keeps a prefix of the URL and cuts
    at the first occurrence of the marker, dropping whatever follows it: a
    URL without a question mark, followed by the marker and any further
    text, comes back as that URL alone. *)
Theorem strip_small_style_cuts_at_marker :
  (forall u, exists t, u = (strip_small_style u ++ t)%string) /\
  (forall p rest,
     string_forall (fun c => negb (Ascii.eqb c "?")) p = true ->
     strip_small_style (p ++ SMALL_STYLE ++ rest)%string = p).
Proof.
  split.
  - intros u. unfold strip_small_style.
    destruct (str_contains SMALL_STYLE u).
    + apply split_head_prefix.
    + exists EmptyString. symmetry. apply append_nil_r.
  - intros p rest Hp.
    assert (H : str_contains SMALL_STYLE (p ++ SMALL_STYLE ++ rest)%string = true /\
                split_head SMALL_STYLE (p ++ SMALL_STYLE ++ rest)%string = p).
    { induction p as [|c p IH].
      - cbn [append]. split.
        + destruct (SMALL_STYLE ++ rest)%string eqn:Hs; [discriminate Hs|].
          cbn [str_contains]. rewrite <- Hs, starts_with_append. reflexivity.
        + destruct (SMALL_STYLE ++ rest)%string eqn:Hs; [discriminate Hs|].
          cbn [split_head]. rewrite <- Hs, starts_with_append. reflexivity.
      - simpl in Hp. apply andb_true_iff in Hp as [Hc Hp].
        destruct (IH Hp) as [IH1 IH2].
        assert (Hstart : starts_with SMALL_STYLE
                           (String c (p ++ SMALL_STYLE ++ rest)) = false).
        { unfold SMALL_STYLE at 1. cbn [starts_with].
          rewrite Ascii.eqb_sym. apply negb_true_iff in Hc. rewrite Hc. reflexivity. }
        cbn [append]. split.
        + cbn [str_contains]. rewrite Hstart, IH1. reflexivity.
        + cbn [split_head]. rewrite Hstart, IH2. reflexivity. }
    unfold strip_small_style. destruct H as [-> ->]. reflexivity.
Qed.

Lemma strip_small_style_cuts_at_marker_witness :
  strip_small_style "http://c/12.jpg?x-oss-process=style/small&v=2" = "http://c/12.jpg"%string.
Proof.
  destruct strip_small_style_cuts_at_marker as [_ Hcut].
  apply (Hcut "http://c/12.jpg"%string "&v=2"%string). reflexivity.
Defined.

(** ** The search URL *)

Lemma string_forall_app p a b :
  string_forall p (a ++ b)%string = string_forall p a && string_forall p b.
Proof.
  induction a as [|c a IH]; simpl; [reflexivity|].
  rewrite IH, andb_assoc. reflexivity.
Qed.

Lemma string_forall_impl (p q : ascii -> bool) s :
  (forall c, p c = true -> q c = true) ->
  string_forall p s = true -> string_forall q s = true.
Proof.
  intros Hpq. induction s as [|c s IH]; simpl; [reflexivity|].
  intros H. apply andb_true_iff in H as [Hc Hs].
  rewrite (Hpq c Hc), (IH Hs). reflexivity.
Qed.

Lemma hex_digit_safe n : n < 16 -> always_safe (hex_digit n) = true.
Proof.
  intros Hn. do 16 (destruct n as [|n]; [reflexivity|]). lia.
Qed.

Lemma percent_encode_safe c : string_forall url_safe (percent_encode c) = true.
Proof.
  unfold percent_encode. cbn [string_forall]. unfold url_safe at 2 3.
  pose proof (nat_ascii_bounded c) as Hc.
  rewrite !hex_digit_safe.
  - reflexivity.
  - apply Nat.mod_upper_bound. discriminate.
  - apply Nat.Div0.div_lt_upper_bound. exact Hc.
Qed.

(** X18.  Whatever the title, its quoted form is made of unreserved
    characters, slashes and percent escapes only: no space and none of
    [& = # ? +] survives, so a title cannot end the [k] parameter of the
    search URL or add another one. *)
Theorem quoted_title_is_url_safe (title : option string) :
  string_forall url_safe (quote (normalized title)) = true /\
  string_forall (fun c => negb (existsb (Ascii.eqb c)
                                        (list_ascii_of_string " &=#?+")))
                (quote (normalized title)) = true.
Proof.
  assert (Hsafe : forall s, string_forall url_safe (quote s) = true).
  { induction s as [|c s IH]; [reflexivity|].
    change (quote (String c s))
      with ((if always_safe c || Ascii.eqb c "/" then String c EmptyString
             else percent_encode c) ++ quote s)%string.
    rewrite string_forall_app, IH, andb_true_r.
    destruct (always_safe c || Ascii.eqb c "/") eqn:Hc.
    - cbn [string_forall]. unfold url_safe. rewrite Hc. reflexivity.
    - apply percent_encode_safe. }
  split; [apply Hsafe|].
  apply (string_forall_impl url_safe); [|apply Hsafe].
  intros c Hc. unfold url_safe in Hc.
  destruct c as [b0 b1 b2 b3 b4 b5 b6 b7].
  destruct b0, b1, b2, b3, b4, b5, b6, b7; try reflexivity; discriminate Hc.
Qed.

(** ** From a search hit back to its id *)

Lemma all_digits_string_of_uint d : all_digits (NilEmpty.string_of_uint d) = true.
Proof. induction d; simpl; auto. Qed.

Lemma decimal_numeric n : (0 < n)%Z -> numeric_id (decimal n).
Proof.
  intros Hn. split; [apply decimal_nonempty|].
  unfold decimal. destruct n as [|p|p]; try lia.
  simpl. destruct (Pos.to_uint p) eqn:Hp; try reflexivity;
    simpl; rewrite all_digits_string_of_uint; reflexivity.
Qed.

(** X19.  A search hit whose id is a positive integer or a string of ASCII
    digits gives a record whose identifier is that id written in decimal and whose
    URL leads back to it: [id_from_url] of the record's URL is the record's
    identifier. *)
Theorem search_hit_url_leads_back (E : Env) i kv v id (st : state Metadata) :
  lookup "novel_id" kv = Some v ->
  (exists n, v = JNum n /\ (0 < n)%Z /\ id = decimal n) \/
  (v = JStr id /\ numeric_id id) ->
  well_formed_hit (JObj kv) ->
  exists mi m,
    search_hit E i (JObj kv) st =
    (Ok tt, mk_state (queue st ++ [mi]) (log st ++ [(INFO, m)]) (requests st)) /\
    external_id mi = Some id /\
    id_from_url (mi_url mi) = Some id.
Proof.
  intros Hv Hid Hwf.
  assert (Hnum : numeric_id id).
  { destruct Hid as [(n & _ & Hn & ->) | [_ H]]; [apply decimal_numeric, Hn | exact H]. }
  assert (Hstr : py_str (repr_str E) v = id).
  { destruct Hid as [(n & -> & _ & ->) | [-> _]]; reflexivity. }
  assert (Htruthy : truthy v = true).
  { destruct Hid as [(n & -> & Hn & _) | [-> [Hne _]]]; simpl.
    - destruct (Z.eqb_spec n 0); [lia | reflexivity].
    - destruct (String.eqb_spec id ""); [contradiction | reflexivity]. }
  pose proof (search_hit_eval E i (JObj kv) st) as Hhit.
  destruct (hit_record_well_formed (repr_str E) (JObj kv) Hwf) as [o Ho].
  unfold hit_record in Ho. unfold get_or at 1 in Ho. rewrite Hv, Htruthy in Ho.
  simpl negb in Ho. cbv iota in Ho.
  destruct (normalize_cover (get_or "novel_cover" (JStr CHANGPEI_NO_BOOKCOVER_URL) kv))
    as [bCover|e] eqn:Hcover; [|discriminate Ho].
  simpl in Ho. injection Ho as <-.
  unfold hit_record in Hhit. unfold get_or at 1 in Hhit. rewrite Hv, Htruthy in Hhit.
  simpl negb in Hhit. cbv iota in Hhit. rewrite Hcover in Hhit. simpl in Hhit.
  destruct Hhit as [m Hm]. eexists _, m. split; [exact Hm|].
  unfold search_record, external_id, get_or. simpl. rewrite Hv, Hstr.
  split; [reflexivity | apply id_from_book_url, Hnum].
Qed.

Lemma search_hit_url_leads_back_witness :
  exists mi m,
    search_hit good_world 0 (JObj [("novel_id", JNum 1312354)]) (@start Metadata) =
    (Ok tt, mk_state ([] ++ [mi]) ([] ++ [(INFO, m)]) []) /\
    external_id mi = Some "1312354"%string /\
    id_from_url (mi_url mi) = Some "1312354"%string.
Proof.
  apply (search_hit_url_leads_back good_world 0 [("novel_id", JNum 1312354)]
           (JNum 1312354) "1312354"%string start).
  - reflexivity.
  - left. exists 1312354%Z. repeat split.
  - eexists. split; [reflexivity | left; reflexivity].
Defined.

(** A title holding a lone surrogate, as its three bytes, is not the UTF-8
    text of any [str]; the titles of the examples are. *)
Lemma lone_surrogate_not_encodable :
  encodable (String (ascii_of_nat 237) (String (ascii_of_nat 160)
              (String (ascii_of_nat 128) EmptyString))) = false /\
  encodable "a b/é长" = true.
Proof. split; reflexivity. Qed.
